(** * Drone photo plans: camera geometry and the lawn-mower grid

    A shallow embedding of [src/data_model.py], [src/camera_utils.py],
    [src/plan_computation.py] and [src/visualization.py].

    Numbers.  The Python code computes on [float] and numpy [float64], that
    is on binary64 numbers, and on Python integers.  The code is embedded
    twice.

    - [Module binary64] follows the interpreter: floats are Stdlib's
      primitive binary64 numbers, every operation rounds as IEEE 754
      prescribes, the fields annotated [int] are integers, and an exception
      ([ZeroDivisionError], [OverflowError], [ValueError], [IndexError]) is
      a value of the result type.  Everything stated about the numbers a
      returned plan contains (how many waypoints, which spacing, which
      coordinates) is proved of this embedding, in [Module planner64].

    - The top-level definitions read a float as the rational it denotes and
      compute exactly, over [Q]; Python's [==], [<], [<=] are [Qeq], [Qlt],
      [Qle], and a computation that divides by zero answers [None].  They
      serve the properties that do not rest on an exact identity of
      rational arithmetic: the shape of the returned list, constant fields,
      order and distinctness of the positions, products with zero.
      [binary64_rounding] shows the kind of identity that is not carried
      over: [n * (d / n) = d].

    Partiality.  A Python division of two Python numbers by zero raises
    [ZeroDivisionError]; with a numpy operand it yields [inf] or [nan] and
    the computation carries on.  The binary64 embedding distinguishes the
    two; the exact embedding has no value for either and answers [None]. *)

From Stdlib Require Import String ZArith QArith Qround Qminmax Qfield List Lia Lqa.
From Stdlib Require Import Floats.
From Stdlib Require Uint63.
Import ListNotations.

Local Open Scope Q_scope.

(** ** The option monad of partial computations *)

Definition ret {A : Type} (a : A) : option A := Some a.

Definition bind {A B : Type} (m : option A) (k : A -> option B) : option B :=
  match m with
  | Some a => k a
  | None => None
  end.

Notation "x <- m ;; k" := (bind m (fun x => k))
  (at level 61, m at next level, right associativity).

(** [a / b] of Python and numpy, where it has a rational value. *)
Definition div (a b : Q) : option Q :=
  if Qeq_bool b 0 then None else Some (a / b).

(** [range(n)] for a Python integer [n] (empty when [n <= 0]). *)
Definition range (n : Z) : list Z := map Z.of_nat (seq 0 (Z.to_nat n)).

(** ** data_model.py *)

Record Camera : Type := {
  fx : Q;
  fy : Q;
  cx : Q;
  cy : Q;
  sensor_size_x_mm : Q;
  sensor_size_y_mm : Q;
  image_size_x : Q;
  image_size_y : Q
}.

Record DatasetSpec : Type := {
  overlap : Q;
  sidelap : Q;
  height : Q;
  scan_dimension_x : Q;
  scan_dimension_y : Q;
  exposure_time_ms : Q
}.

Record Waypoint : Type := {
  x : Q;
  y : Q;
  z : Q;
  speed : Q
}.

(** ** camera_utils.py *)

Definition compute_focal_length_in_mm (camera : Camera) : option (Q * Q) :=
  pixel_to_mm_x <- div (sensor_size_x_mm camera) (image_size_x camera) ;;
  pixel_to_mm_y <- div (sensor_size_y_mm camera) (image_size_y camera) ;;
  ret (fx camera * pixel_to_mm_x, fy camera * pixel_to_mm_y).

Definition compute_image_footprint_on_surface
    (camera : Camera) (distance_from_surface : Q) : option (Q * Q) :=
  let distance_mm := distance_from_surface * 1000 in
  fl_x <- compute_focal_length_in_mm camera ;;
  let focal_length_x := fst fl_x in
  fl_y <- compute_focal_length_in_mm camera ;;
  let focal_length_y := snd fl_y in
  footprint_x <- div (sensor_size_x_mm camera * distance_mm) focal_length_x ;;
  footprint_y <- div (sensor_size_y_mm camera * distance_mm) focal_length_y ;;
  ret (footprint_x / 1000, footprint_y / 1000).

(** Python's [min(a, b)] answers [b] only when [b < a]; so does [Qmin]. *)
Definition compute_ground_sampling_distance
    (camera : Camera) (distance_from_surface : Q) : option Q :=
  div distance_from_surface (Qmin (fx camera) (fy camera)).

(** ** plan_computation.py *)

Definition compute_distance_between_images
    (camera : Camera) (dataset_spec : DatasetSpec) : option (Q * Q) :=
  fp_x <- compute_image_footprint_on_surface camera (height dataset_spec) ;;
  let footprint_x := fst fp_x in
  fp_y <- compute_image_footprint_on_surface camera (height dataset_spec) ;;
  let footprint_y := snd fp_y in
  let distance_x := footprint_x * (1 - overlap dataset_spec) in
  let distance_y := footprint_y * (1 - sidelap dataset_spec) in
  ret (distance_x, distance_y).

(** The default of the keyword argument [allowed_movement_px]. *)
Definition default_allowed_movement_px : Q := 1.

Definition compute_speed_during_photo_capture
    (camera : Camera) (dataset_spec : DatasetSpec) (allowed_movement_px : Q)
    : option Q :=
  gsd <- compute_ground_sampling_distance camera (height dataset_spec) ;;
  let max_distance_meters := gsd * allowed_movement_px in
  let exposure_time_s := exposure_time_ms dataset_spec / 1000 in
  div max_distance_meters exposure_time_s.

(** Lines 75-76, one axis:
    [1 if scan_dim == 0 else math.ceil(scan_dim / ideal_distance) + 1].
    The value is overwritten before it is used; the division is carried out
    all the same. *)
Definition first_num_lines (scan_dim ideal_distance : Q) : option Z :=
  if Qeq_bool scan_dim 0 then ret 1%Z
  else q <- div scan_dim ideal_distance ;; ret (Qceiling q + 1)%Z.

(** Lines 79 and 82, one axis:
    [0 if scan_dim == 0 else math.ceil(scan_dim / ideal_distance)]. *)
Definition num_intervals (scan_dim ideal_distance : Q) : option Z :=
  if Qeq_bool scan_dim 0 then ret 0%Z
  else q <- div scan_dim ideal_distance ;; ret (Qceiling q).

(** Lines 85-91, one axis.  The division is guarded by [num_lines > 1], so
    its divisor is a positive integer. *)
Definition actual_distance (scan_dim : Q) (num_lines : Z) : Q :=
  if (1 <? num_lines)%Z then scan_dim / inject_Z (num_lines - 1) else 0.

(** Lines 98-103: the x coordinates of row [r]. *)
Definition x_coords (scan_dim_x actual_distance_x : Q) (num_cols r : Z) : list Q :=
  if (r mod 2 =? 0)%Z
  then map (fun c => inject_Z c * actual_distance_x) (range num_cols)
  else map (fun c => scan_dim_x - inject_Z c * actual_distance_x) (range num_cols).

(** Lines 95-109: the waypoints appended for row [r]. *)
Definition row_waypoints (scan_dim_x actual_distance_x actual_distance_y : Q)
    (num_cols : Z) (height capture_speed : Q) (r : Z) : list Waypoint :=
  let y_coord := inject_Z r * actual_distance_y in
  map (fun x_coord =>
         let z_coord := height in
         {| x := x_coord; y := y_coord; z := z_coord; speed := capture_speed |})
      (x_coords scan_dim_x actual_distance_x num_cols r).

Definition generate_photo_plan_on_grid
    (camera : Camera) (dataset_spec : DatasetSpec) : option (list Waypoint) :=
  let scan_dim_x := scan_dimension_x dataset_spec in
  let scan_dim_y := scan_dimension_y dataset_spec in
  let height := height dataset_spec in
  ideal <- compute_distance_between_images camera dataset_spec ;;
  let ideal_distance_x := fst ideal in
  let ideal_distance_y := snd ideal in
  capture_speed <-
    compute_speed_during_photo_capture camera dataset_spec
      default_allowed_movement_px ;;
  _num_cols <- first_num_lines scan_dim_x ideal_distance_x ;;
  _num_rows <- first_num_lines scan_dim_y ideal_distance_y ;;
  num_intervals_x <- num_intervals scan_dim_x ideal_distance_x ;;
  let num_cols := (num_intervals_x + 1)%Z in
  num_intervals_y <- num_intervals scan_dim_y ideal_distance_y ;;
  let num_rows := (num_intervals_y + 1)%Z in
  let actual_distance_x := actual_distance scan_dim_x num_cols in
  let actual_distance_y := actual_distance scan_dim_y num_rows in
  ret (flat_map
         (row_waypoints scan_dim_x actual_distance_x actual_distance_y
            num_cols height capture_speed)
         (range num_rows)).

(** The grid that [generate_photo_plan_on_grid] has computed when it reaches
    its loop (lines 70-91): [(num_rows, num_cols, actual_distance_x,
    actual_distance_y)]. *)
Definition plan_grid
    (camera : Camera) (dataset_spec : DatasetSpec) : option (Z * Z * Q * Q) :=
  let scan_dim_x := scan_dimension_x dataset_spec in
  let scan_dim_y := scan_dimension_y dataset_spec in
  ideal <- compute_distance_between_images camera dataset_spec ;;
  let ideal_distance_x := fst ideal in
  let ideal_distance_y := snd ideal in
  num_intervals_x <- num_intervals scan_dim_x ideal_distance_x ;;
  let num_cols := (num_intervals_x + 1)%Z in
  num_intervals_y <- num_intervals scan_dim_y ideal_distance_y ;;
  let num_rows := (num_intervals_y + 1)%Z in
  let actual_distance_x := actual_distance scan_dim_x num_cols in
  let actual_distance_y := actual_distance scan_dim_y num_rows in
  ret (num_rows, num_cols, actual_distance_x, actual_distance_y).

(** A [DatasetSpec] that differs in its exposure time only. *)
Definition with_exposure_time_ms (dataset_spec : DatasetSpec) (e : Q) : DatasetSpec :=
  {| overlap := overlap dataset_spec;
     sidelap := sidelap dataset_spec;
     height := height dataset_spec;
     scan_dimension_x := scan_dimension_x dataset_spec;
     scan_dimension_y := scan_dimension_y dataset_spec;
     exposure_time_ms := e |}.

(** ** Input invariants (the caller's obligations) *)

Definition valid_camera (camera : Camera) : Prop :=
  0 < fx camera /\ 0 < fy camera /\
  0 < sensor_size_x_mm camera /\ 0 < sensor_size_y_mm camera /\
  0 < image_size_x camera /\ 0 < image_size_y camera.

Definition valid_spec (dataset_spec : DatasetSpec) : Prop :=
  (0 <= overlap dataset_spec /\ overlap dataset_spec < 1) /\
  (0 <= sidelap dataset_spec /\ sidelap dataset_spec < 1) /\
  0 < height dataset_spec /\
  0 <= scan_dimension_x dataset_spec /\
  0 <= scan_dimension_y dataset_spec /\
  0 < exposure_time_ms dataset_spec.

(** ** The grid in the words of the specification *)

(** "[intervals = 0] if that axis's scan dimension is 0, else
    [ceil(scan_dimension / ideal_distance)]". *)
Definition spec_intervals (scan_dimension ideal_distance : Q) : Z :=
  if Qeq_bool scan_dimension 0 then 0%Z
  else Qceiling (scan_dimension / ideal_distance).

(** "number of grid lines per axis = [intervals + 1]". *)
Definition spec_lines (scan_dimension ideal_distance : Q) : Z :=
  (spec_intervals scan_dimension ideal_distance + 1)%Z.

(** ** Sample inputs *)

Definition sample_camera : Camera :=
  {| fx := 1000; fy := 1000; cx := 500; cy := 500;
     sensor_size_x_mm := 36; sensor_size_y_mm := 24;
     image_size_x := 1000; image_size_y := 1000 |}.

Definition sample_spec : DatasetSpec :=
  {| overlap := 1 # 2; sidelap := 1 # 2; height := 60;
     scan_dimension_x := 100; scan_dimension_y := 70;
     exposure_time_ms := 2 |}.

(** Both scan dimensions zero. *)
Definition sample_point_spec : DatasetSpec :=
  {| overlap := 1 # 2; sidelap := 1 # 2; height := 60;
     scan_dimension_x := 0; scan_dimension_y := 0;
     exposure_time_ms := 2 |}.

(** Different focal lengths on the two axes. *)
Definition narrow_camera : Camera :=
  {| fx := 1000; fy := 800; cx := 500; cy := 500;
     sensor_size_x_mm := 36; sensor_size_y_mm := 24;
     image_size_x := 1000; image_size_y := 1000 |}.


(** ** The code over binary64 *)

Module binary64.

(** The camera with its [float] fields as binary64 numbers. *)
Record Camera : Type := {
  fx : float;
  fy : float;
  cx : float;
  cy : float;
  sensor_size_x_mm : float;
  sensor_size_y_mm : float;
  image_size_x : Z;
  image_size_y : Z
}.

(** The exceptions the function can raise: indexing a point with fewer than
    three coordinates.  A numpy [float64] division raises nothing, whatever
    the divisor. *)
Inductive exn : Type := IndexError.

Inductive outcome (A : Type) : Type :=
| Returns (a : A)
| Raises (e : exn).

Arguments Returns {A} a.
Arguments Raises {A} e.

(** [point[i]] on a one-dimensional array. *)
Definition getitem (point : list float) (i : nat) : outcome float :=
  match nth_error point i with
  | Some v => Returns v
  | None => Raises IndexError
  end.

Definition bind {A B : Type} (m : outcome A) (k : A -> outcome B) : outcome B :=
  match m with
  | Returns a => k a
  | Raises e => Raises e
  end.

Definition project_world_point_to_image
    (camera : Camera) (point : list float) : outcome (float * float) :=
  let fx := fx camera in
  let fy := fy camera in
  let cx := cx camera in
  let cy := cy camera in
  bind (getitem point 0) (fun X =>
  bind (getitem point 1) (fun Y =>
  bind (getitem point 2) (fun Z =>
  let x := (fx * (X / Z))%float in
  let y := (fy * (Y / Z))%float in
  let u := (x + cx)%float in
  let v := (y + cy)%float in
  Returns (u, v)))).

(** Neither a finite number nor a zero: an infinity or a NaN. *)
Definition nonfinite (s : spec_float) : bool :=
  match s with
  | S754_nan | S754_infinity _ => true
  | S754_zero _ | S754_finite _ _ _ => false
  end.

Definition sample_camera : Camera :=
  {| fx := 1000%float; fy := 1000%float; cx := 500%float; cy := 500%float;
     sensor_size_x_mm := 36%float; sensor_size_y_mm := 24%float;
     image_size_x := 1920%Z; image_size_y := 1080%Z |}.

(** *** The planner over binary64

    The functions of [camera_utils.py] and [plan_computation.py] with the
    arithmetic the interpreter carries out: Python [float] and numpy
    [float64] are binary64 numbers, the fields annotated [int] are Python
    integers. *)

Inductive error : Type := ZeroDivisionError | OverflowError | ValueError.

Inductive result (A : Type) : Type :=
| Ok (a : A)
| Err (e : error).

Arguments Ok {A} a.
Arguments Err {A} e.

Definition and_then {A B : Type} (m : result A) (k : A -> result B) : result B :=
  match m with
  | Ok a => k a
  | Err e => Err e
  end.

Notation "x <-- m ;; k" := (and_then m (fun x => k))
  (at level 61, m at next level, right associativity).

(** The binary64 number nearest to an integer (ties to even), infinite when
    the integer is too large. *)
Definition to_float (n : Z) : float :=
  SF2Prim (binary_normalize prec emax n 0 false).

(** A Python integer as an operand of a float operation: [OverflowError]
    when it is too large for a float. *)
Definition float_of_int (n : Z) : result float :=
  let f := to_float n in
  if is_finite f then Ok f else Err OverflowError.

Definition Z2SF (n : Z) : spec_float :=
  match n with
  | Z0 => S754_zero false
  | Zpos p => S754_finite false p 0
  | Zneg p => S754_finite true p 0
  end.

(** [n / m] on two Python integers: the correctly rounded quotient. *)
Definition int_truediv (n m : Z) : result float :=
  if (m =? 0)%Z then Err ZeroDivisionError
  else
    let f := SF2Prim (SFdiv prec emax (Z2SF n) (Z2SF m)) in
    if is_finite f then Ok f else Err OverflowError.

(** [a / b] on two Python floats; numpy's division is the bare [/]. *)
Definition float_truediv (a b : float) : result float :=
  if (b =? 0)%float then Err ZeroDivisionError else Ok (a / b)%float.

(** [math.ceil]. *)
Definition ceil (f : float) : result Z :=
  match Prim2SF f with
  | S754_zero _ => Ok 0%Z
  | S754_finite s m e =>
      let v := if s then Zneg m else Zpos m in
      Ok (if (0 <=? e)%Z then v * 2 ^ e else - ((- v) / 2 ^ (- e)))%Z
  | S754_infinity _ => Err OverflowError
  | S754_nan => Err ValueError
  end.

(** Python's [min(a, b)]: [b] only when [b < a]. *)
Definition min (a b : float) : float := if (b <? a)%float then b else a.

Record DatasetSpec : Type := {
  overlap : float;
  sidelap : float;
  height : float;
  scan_dimension_x : Z;
  scan_dimension_y : Z;
  exposure_time_ms : Z
}.

Record Waypoint : Type := {
  x : float;
  y : float;
  z : float;
  speed : float
}.

Definition compute_focal_length_in_mm (camera : Camera) : result (float * float) :=
  size_x <-- float_of_int (image_size_x camera) ;;
  pixel_to_mm_x <-- float_truediv (sensor_size_x_mm camera) size_x ;;
  size_y <-- float_of_int (image_size_y camera) ;;
  pixel_to_mm_y <-- float_truediv (sensor_size_y_mm camera) size_y ;;
  Ok (fx camera * pixel_to_mm_x, fy camera * pixel_to_mm_y)%float.

Definition compute_image_footprint_on_surface
    (camera : Camera) (distance_from_surface : float) : result (float * float) :=
  let distance_mm := (distance_from_surface * 1000)%float in
  fl_x <-- compute_focal_length_in_mm camera ;;
  let focal_length_x := fst fl_x in
  fl_y <-- compute_focal_length_in_mm camera ;;
  let focal_length_y := snd fl_y in
  let footprint_x := (sensor_size_x_mm camera * distance_mm / focal_length_x)%float in
  let footprint_y := (sensor_size_y_mm camera * distance_mm / focal_length_y)%float in
  Ok (footprint_x / 1000, footprint_y / 1000)%float.

Definition compute_ground_sampling_distance
    (camera : Camera) (distance_from_surface : float) : result float :=
  float_truediv distance_from_surface (min (fx camera) (fy camera)).

Definition compute_distance_between_images
    (camera : Camera) (dataset_spec : DatasetSpec) : result (float * float) :=
  fp_x <-- compute_image_footprint_on_surface camera (height dataset_spec) ;;
  let footprint_x := fst fp_x in
  fp_y <-- compute_image_footprint_on_surface camera (height dataset_spec) ;;
  let footprint_y := snd fp_y in
  let distance_x := (footprint_x * (1 - overlap dataset_spec))%float in
  let distance_y := (footprint_y * (1 - sidelap dataset_spec))%float in
  Ok (distance_x, distance_y).

Definition default_allowed_movement_px : float := 1%float.

Definition compute_speed_during_photo_capture
    (camera : Camera) (dataset_spec : DatasetSpec) (allowed_movement_px : float)
    : result float :=
  gsd <-- compute_ground_sampling_distance camera (height dataset_spec) ;;
  let max_distance_meters := (gsd * allowed_movement_px)%float in
  exposure <-- float_of_int (exposure_time_ms dataset_spec) ;;
  let exposure_time_s := (exposure / 1000)%float in
  float_truediv max_distance_meters exposure_time_s.

(** Lines 75-76, one axis. *)
Definition first_num_lines (scan_dim : Z) (ideal_distance : float) : result Z :=
  if (scan_dim =? 0)%Z then Ok 1%Z
  else
    scan <-- float_of_int scan_dim ;;
    k <-- ceil (scan / ideal_distance) ;;
    Ok (k + 1)%Z.

(** Lines 79 and 82, one axis. *)
Definition num_intervals (scan_dim : Z) (ideal_distance : float) : result Z :=
  if (scan_dim =? 0)%Z then Ok 0%Z
  else
    scan <-- float_of_int scan_dim ;;
    ceil (scan / ideal_distance).

(** Lines 85-91, one axis. *)
Definition actual_distance (scan_dim num_lines : Z) : result float :=
  if (1 <? num_lines)%Z then int_truediv scan_dim (num_lines - 1)
  else Ok 0%float.

(** Lines 98-103.  The integers converted here are a column index and, on
    odd rows, the scan dimension.  An index is at most the ceiling of a
    finite float and the scan dimension, unless zero, has been converted
    before (line 75): neither conversion can overflow at this point, so
    [to_float] is the conversion the interpreter makes. *)
Definition x_coords (scan_dim_x : Z) (actual_distance_x : float)
    (num_cols r : Z) : list float :=
  if (r mod 2 =? 0)%Z
  then map (fun c => to_float c * actual_distance_x)%float (range num_cols)
  else map (fun c => to_float scan_dim_x - to_float c * actual_distance_x)%float
         (range num_cols).

(** Lines 95-109.  The row index in [r * actual_distance_y] is converted
    like a column index. *)
Definition row_waypoints (scan_dim_x : Z) (actual_distance_x actual_distance_y : float)
    (num_cols : Z) (height capture_speed : float) (r : Z) : list Waypoint :=
  let y_coord := (to_float r * actual_distance_y)%float in
  map (fun x_coord =>
         let z_coord := height in
         {| x := x_coord; y := y_coord; z := z_coord; speed := capture_speed |})
      (x_coords scan_dim_x actual_distance_x num_cols r).

Definition generate_photo_plan_on_grid
    (camera : Camera) (dataset_spec : DatasetSpec) : result (list Waypoint) :=
  let scan_dim_x := scan_dimension_x dataset_spec in
  let scan_dim_y := scan_dimension_y dataset_spec in
  let height := height dataset_spec in
  ideal <-- compute_distance_between_images camera dataset_spec ;;
  let ideal_distance_x := fst ideal in
  let ideal_distance_y := snd ideal in
  capture_speed <--
    compute_speed_during_photo_capture camera dataset_spec
      default_allowed_movement_px ;;
  _num_cols <-- first_num_lines scan_dim_x ideal_distance_x ;;
  _num_rows <-- first_num_lines scan_dim_y ideal_distance_y ;;
  num_intervals_x <-- num_intervals scan_dim_x ideal_distance_x ;;
  let num_cols := (num_intervals_x + 1)%Z in
  num_intervals_y <-- num_intervals scan_dim_y ideal_distance_y ;;
  let num_rows := (num_intervals_y + 1)%Z in
  actual_distance_x <-- actual_distance scan_dim_x num_cols ;;
  actual_distance_y <-- actual_distance scan_dim_y num_rows ;;
  Ok (flat_map
        (row_waypoints scan_dim_x actual_distance_x actual_distance_y
           num_cols height capture_speed)
        (range num_rows)).

(** The grid the function has computed when it reaches its loop:
    [(num_rows, num_cols, actual_distance_x, actual_distance_y)]. *)
Definition plan_grid
    (camera : Camera) (dataset_spec : DatasetSpec) : result (Z * Z * float * float) :=
  let scan_dim_x := scan_dimension_x dataset_spec in
  let scan_dim_y := scan_dimension_y dataset_spec in
  ideal <-- compute_distance_between_images camera dataset_spec ;;
  let ideal_distance_x := fst ideal in
  let ideal_distance_y := snd ideal in
  num_intervals_x <-- num_intervals scan_dim_x ideal_distance_x ;;
  let num_cols := (num_intervals_x + 1)%Z in
  num_intervals_y <-- num_intervals scan_dim_y ideal_distance_y ;;
  let num_rows := (num_intervals_y + 1)%Z in
  actual_distance_x <-- actual_distance scan_dim_x num_cols ;;
  actual_distance_y <-- actual_distance scan_dim_y num_rows ;;
  Ok (num_rows, num_cols, actual_distance_x, actual_distance_y).

(** A zero, a finite number or an infinity with the sign bit clear, or a
    NaN: what a comparison never puts below zero. *)
Definition not_negative (s : spec_float) : bool :=
  match s with
  | S754_nan => true
  | S754_zero b | S754_infinity b | S754_finite b _ _ => negb b
  end.

(** The input invariants, decided on binary64 numbers and integers. *)
Definition valid_camera (camera : Camera) : bool :=
  (0 <? fx camera)%float && (0 <? fy camera)%float &&
  (0 <? sensor_size_x_mm camera)%float && (0 <? sensor_size_y_mm camera)%float &&
  (0 <? image_size_x camera)%Z && (0 <? image_size_y camera)%Z.

Definition valid_spec (dataset_spec : DatasetSpec) : bool :=
  (0 <=? overlap dataset_spec)%float && (overlap dataset_spec <? 1)%float &&
  (0 <=? sidelap dataset_spec)%float && (sidelap dataset_spec <? 1)%float &&
  (0 <? height dataset_spec)%float &&
  (0 <=? scan_dimension_x dataset_spec)%Z &&
  (0 <=? scan_dimension_y dataset_spec)%Z &&
  (0 <? exposure_time_ms dataset_spec)%Z.



(** A camera with different focal lengths and a 225 m by 30 m field flown
    at 100 m. *)
Definition field_camera : Camera :=
  {| fx := 700%float; fy := 900%float; cx := 500%float; cy := 500%float;
     sensor_size_x_mm := 36%float; sensor_size_y_mm := 24%float;
     image_size_x := 1000%Z; image_size_y := 1000%Z |}.

Definition field_spec : DatasetSpec :=
  {| overlap := 0.75%float; sidelap := 0.5%float; height := 100%float;
     scan_dimension_x := 225; scan_dimension_y := 30; exposure_time_ms := 2 |}.



End binary64.


(** A [DatasetSpec] that differs in its overlap and sidelap only. *)
Definition with_overlap (dataset_spec : DatasetSpec) (o s : Q) : DatasetSpec :=
  {| overlap := o;
     sidelap := s;
     height := height dataset_spec;
     scan_dimension_x := scan_dimension_x dataset_spec;
     scan_dimension_y := scan_dimension_y dataset_spec;
     exposure_time_ms := exposure_time_ms dataset_spec |}.

(** ** visualization.py *)

Module visualization.

(** What the function hands to plotly: one scatter trace and the layout
    settings.  [go.Figure()] is the figure with no trace and no layout
    setting, [add_trace] appends a trace, [update_layout] sets the given
    settings. *)
Record Marker : Type := {
  marker_symbol : string;
  marker_size : Z;
  marker_angleref : string;
  marker_color : string
}.

Record Line : Type := {
  line_width : Z;
  line_color : string
}.

Record Scatter : Type := {
  scatter_x : list Q;
  scatter_y : list Q;
  mode : string;
  marker : Marker;
  line : Line;
  name : string
}.

Record Layout : Type := {
  title : option string;
  xaxis_title : option string;
  yaxis_title : option string;
  yaxis_scaleanchor : option string;
  yaxis_scaleratio : option Z;
  hovermode : option string
}.

Record Figure : Type := {
  data : list Scatter;
  layout : Layout
}.

Definition empty_figure : Figure :=
  {| data := [];
     layout := {| title := None; xaxis_title := None; yaxis_title := None;
                  yaxis_scaleanchor := None; yaxis_scaleratio := None;
                  hovermode := None |} |}.

Definition add_trace (fig : Figure) (trace : Scatter) : Figure :=
  {| data := data fig ++ [trace]; layout := layout fig |}.

Definition update_layout (fig : Figure) (new_layout : Layout) : Figure :=
  {| data := data fig; layout := new_layout |}.

Section Plot.

(** Python's [format(value, ".2f")], a built-in. *)
Variable format_2f : Q -> string.

(** [None] is the [IndexError] of [photo_plans[0]] on an empty list. *)
Definition plot_photo_plan (photo_plans : list Waypoint) : option Figure :=
  let x_coords := map x photo_plans in
  let y_coords := map y photo_plans in
  first <- nth_error photo_plans 0 ;;
  let z_coord := z first in
  first' <- nth_error photo_plans 0 ;;
  let capture_speed := speed first' in
  let fig := empty_figure in
  let fig :=
    add_trace fig
      {| scatter_x := x_coords;
         scatter_y := y_coords;
         mode := "lines+markers";
         marker := {| marker_symbol := "arrow"; marker_size := 10;
                      marker_angleref := "previous";
                      marker_color := "MediumPurple" |};
         line := {| line_width := 2; line_color := "LightSkyBlue" |};
         name := "Flight Path" |} in
  let plot_title :=
    ("Drone Flight Plan<br>"
     ++ "<sup>Height (Z): " ++ format_2f z_coord
     ++ "m | Capture Speed: " ++ format_2f capture_speed
     ++ " m/s</sup>")%string in
  let fig :=
    update_layout fig
      {| title := Some plot_title;
         xaxis_title := Some "X-coordinate (m)"%string;
         yaxis_title := Some "Y-coordinate (m)"%string;
         yaxis_scaleanchor := Some "x"%string;
         yaxis_scaleratio := Some 1%Z;
         hovermode := Some "closest"%string |} in
  ret fig.

End Plot.

End visualization.

(** * Properties *)

(** ** Arithmetic of the exact model *)

Lemma div_defined (a b : Q) : ~ b == 0 -> div a b = Some (a / b).
Proof.
  intros Hb. unfold div.
  destruct (Qeq_bool b 0) eqn:E; [| reflexivity].
  apply Qeq_bool_eq in E. contradiction.
Qed.

Lemma Qdiv_pos (a b : Q) : 0 < a -> 0 < b -> 0 < a / b.
Proof.
  intros Ha Hb. apply Qlt_shift_div_l; [assumption |]. lra.
Qed.

Lemma Qdiv_nonneg (a b : Q) : 0 <= a -> 0 < b -> 0 <= a / b.
Proof.
  intros Ha Hb. apply Qle_shift_div_l; [assumption |]. lra.
Qed.

Lemma Qmin_pos (a b : Q) : 0 < a -> 0 < b -> 0 < Qmin a b.
Proof.
  intros Ha Hb. destruct (Q.min_spec a b) as [[_ E] | [_ E]]; rewrite E; assumption.
Qed.

Lemma inject_Z_pos (n : Z) : (0 < n)%Z -> 0 < inject_Z n.
Proof. intros H. change 0 with (inject_Z 0). rewrite <- Zlt_Qlt. exact H. Qed.

(** ** Camera geometry on valid inputs *)

Lemma focal_length_valid (camera : Camera) :
  valid_camera camera ->
  exists fmx fmy,
    compute_focal_length_in_mm camera = Some (fmx, fmy) /\ 0 < fmx /\ 0 < fmy.
Proof.
  intros (Hfx & Hfy & Hsx & Hsy & Hix & Hiy).
  unfold compute_focal_length_in_mm.
  rewrite !div_defined by lra. cbn [bind ret].
  eexists _, _. split; [reflexivity |].
  split; apply Qmult_lt_0_compat; auto using Qdiv_pos.
Qed.

Lemma footprint_valid (camera : Camera) (d : Q) :
  valid_camera camera -> 0 < d ->
  exists fpx fpy,
    compute_image_footprint_on_surface camera d = Some (fpx, fpy) /\
    0 < fpx /\ 0 < fpy.
Proof.
  intros Hc Hd.
  destruct (focal_length_valid camera Hc) as (fmx & fmy & E & Hfmx & Hfmy).
  destruct Hc as (Hfx & Hfy & Hsx & Hsy & Hix & Hiy).
  unfold compute_image_footprint_on_surface.
  rewrite E. cbn [bind ret fst snd].
  rewrite !div_defined by lra. cbn [bind ret].
  eexists _, _. split; [reflexivity |].
  assert (Hmm : 0 < d * 1000) by lra.
  split; apply Qdiv_pos; try lra; apply Qdiv_pos; try assumption;
    apply Qmult_lt_0_compat; assumption.
Qed.

Lemma distance_between_images_valid (camera : Camera) (dataset_spec : DatasetSpec) :
  valid_camera camera -> valid_spec dataset_spec ->
  exists dx dy,
    compute_distance_between_images camera dataset_spec = Some (dx, dy) /\
    0 < dx /\ 0 < dy.
Proof.
  intros Hc ((Ho0 & Ho1) & (Hs0 & Hs1) & Hh & _).
  destruct (footprint_valid camera (height dataset_spec) Hc Hh)
    as (fpx & fpy & E & Hfpx & Hfpy).
  unfold compute_distance_between_images.
  rewrite E. cbn [bind ret fst snd].
  eexists _, _. split; [reflexivity |].
  split; apply Qmult_lt_0_compat; lra.
Qed.

Lemma ground_sampling_distance_defined (camera : Camera) (d : Q) :
  ~ Qmin (fx camera) (fy camera) == 0 ->
  compute_ground_sampling_distance camera d
  = Some (d / Qmin (fx camera) (fy camera)).
Proof. intros H. unfold compute_ground_sampling_distance. apply div_defined, H. Qed.

Lemma exposure_time_s_nonzero (e : Q) : ~ e == 0 -> ~ e / 1000 == 0.
Proof.
  intros He H. apply He.
  setoid_replace e with (e / 1000 * 1000) by (field; lra).
  rewrite H. ring.
Qed.

Lemma speed_defined (camera : Camera) (dataset_spec : DatasetSpec) (a : Q) :
  ~ Qmin (fx camera) (fy camera) == 0 ->
  ~ exposure_time_ms dataset_spec == 0 ->
  compute_speed_during_photo_capture camera dataset_spec a
  = Some (height dataset_spec / Qmin (fx camera) (fy camera) * a
          / (exposure_time_ms dataset_spec / 1000)).
Proof.
  intros Hm He. unfold compute_speed_during_photo_capture.
  rewrite ground_sampling_distance_defined by assumption. cbn [bind].
  apply div_defined, exposure_time_s_nonzero, He.
Qed.

Lemma speed_valid (camera : Camera) (dataset_spec : DatasetSpec) (a : Q) :
  0 < fx camera -> 0 < fy camera -> 0 < exposure_time_ms dataset_spec ->
  compute_speed_during_photo_capture camera dataset_spec a
  = Some (height dataset_spec / Qmin (fx camera) (fy camera) * a
          / (exposure_time_ms dataset_spec / 1000)).
Proof.
  intros Hfx Hfy He. pose proof (Qmin_pos _ _ Hfx Hfy).
  apply speed_defined; lra.
Qed.

(** ** Line counts and spacing on one axis *)

Lemma num_intervals_defined (scan_dim ideal_distance : Q) :
  ~ ideal_distance == 0 ->
  num_intervals scan_dim ideal_distance
  = Some (spec_intervals scan_dim ideal_distance).
Proof.
  intros Hi. unfold num_intervals, spec_intervals.
  destruct (Qeq_bool scan_dim 0); [reflexivity |].
  rewrite div_defined by assumption. reflexivity.
Qed.

Lemma first_num_lines_defined (scan_dim ideal_distance : Q) :
  ~ ideal_distance == 0 ->
  first_num_lines scan_dim ideal_distance
  = Some (spec_lines scan_dim ideal_distance).
Proof.
  intros Hi. unfold first_num_lines, spec_lines, spec_intervals.
  destruct (Qeq_bool scan_dim 0); [reflexivity |].
  rewrite div_defined by assumption. reflexivity.
Qed.

Lemma spec_intervals_nonneg (scan_dim ideal_distance : Q) :
  0 <= scan_dim -> 0 < ideal_distance ->
  (0 <= spec_intervals scan_dim ideal_distance)%Z.
Proof.
  intros Hs Hi. unfold spec_intervals.
  destruct (Qeq_bool scan_dim 0); [lia |].
  rewrite Zle_Qle.
  apply Qle_trans with (scan_dim / ideal_distance);
    [apply Qdiv_nonneg; assumption | apply Qle_ceiling].
Qed.

Lemma actual_distance_several (scan_dim : Q) (num_lines : Z) :
  (1 < num_lines)%Z ->
  actual_distance scan_dim num_lines = scan_dim / inject_Z (num_lines - 1).
Proof.
  intros H. unfold actual_distance.
  destruct (Z.ltb_spec 1 num_lines); [reflexivity | lia].
Qed.

Lemma actual_distance_nonneg (scan_dim : Q) (num_lines : Z) :
  0 <= scan_dim -> 0 <= actual_distance scan_dim num_lines.
Proof.
  intros Hs. unfold actual_distance.
  destruct (Z.ltb_spec 1 num_lines); [| lra].
  apply Qdiv_nonneg; [assumption | apply inject_Z_pos; lia].
Qed.

(** ** Lists: [range] and rows of equal length *)

Lemma range_length (n : Z) : length (range n) = Z.to_nat n.
Proof. unfold range. rewrite length_map, length_seq. reflexivity. Qed.

Lemma range_nth (n : Z) (i : nat) :
  (i < Z.to_nat n)%nat -> nth_error (range n) i = Some (Z.of_nat i).
Proof.
  intros H. unfold range.
  rewrite nth_error_map, nth_error_seq.
  destruct (Nat.ltb_spec i (Z.to_nat n)); [reflexivity | lia].
Qed.

Lemma in_range (n r : Z) : In r (range n) <-> (0 <= r < n)%Z.
Proof.
  unfold range. rewrite in_map_iff. split.
  - intros (i & <- & Hi). apply in_seq in Hi. lia.
  - intros H. exists (Z.to_nat r). split; [lia |]. apply in_seq. lia.
Qed.

Section Rows.

Context {A B : Type} (f : A -> list B) (m : nat).
Hypothesis row_length : forall a, length (f a) = m.

Lemma flat_map_length_rows (l : list A) :
  length (flat_map f l) = (length l * m)%nat.
Proof.
  induction l as [| a l IH]; simpl; [reflexivity |].
  rewrite length_app, IH, row_length. reflexivity.
Qed.

Lemma flat_map_nth_rows (l : list A) (i c : nat) (a : A) :
  nth_error l i = Some a -> (c < m)%nat ->
  nth_error (flat_map f l) (i * m + c) = nth_error (f a) c.
Proof.
  revert i. induction l as [| a0 l IH]; intros i Hi Hc.
  - destruct i; discriminate.
  - destruct i as [| i]; simpl in *.
    + injection Hi as ->. apply nth_error_app1. rewrite row_length. exact Hc.
    + rewrite nth_error_app2 by (rewrite row_length; lia).
      rewrite row_length.
      replace (m + i * m + c - m)%nat with (i * m + c)%nat by lia.
      apply IH; assumption.
Qed.

End Rows.

(** ** The rows of the plan *)

Lemma x_coords_length (scan_dim_x actual_distance_x : Q) (num_cols r : Z) :
  length (x_coords scan_dim_x actual_distance_x num_cols r) = Z.to_nat num_cols.
Proof.
  unfold x_coords.
  destruct (r mod 2 =? 0)%Z; rewrite length_map; apply range_length.
Qed.

Lemma x_coords_nth (scan_dim_x actual_distance_x : Q) (num_cols r : Z) (c : nat) :
  (c < Z.to_nat num_cols)%nat ->
  nth_error (x_coords scan_dim_x actual_distance_x num_cols r) c
  = Some (if (r mod 2 =? 0)%Z
          then inject_Z (Z.of_nat c) * actual_distance_x
          else scan_dim_x - inject_Z (Z.of_nat c) * actual_distance_x).
Proof.
  intros Hc. unfold x_coords.
  destruct (r mod 2 =? 0)%Z; rewrite nth_error_map, range_nth by exact Hc;
    reflexivity.
Qed.

Lemma row_waypoints_length (sdx adx ady : Q) (num_cols : Z) (h v : Q) (r : Z) :
  length (row_waypoints sdx adx ady num_cols h v r) = Z.to_nat num_cols.
Proof. unfold row_waypoints. rewrite length_map. apply x_coords_length. Qed.

Lemma row_waypoints_nth (sdx adx ady : Q) (num_cols : Z) (h v : Q) (r : Z) (c : nat) :
  (c < Z.to_nat num_cols)%nat ->
  nth_error (row_waypoints sdx adx ady num_cols h v r) c
  = Some {| x := if (r mod 2 =? 0)%Z
                 then inject_Z (Z.of_nat c) * adx
                 else sdx - inject_Z (Z.of_nat c) * adx;
            y := inject_Z r * ady; z := h; speed := v |}.
Proof.
  intros Hc. unfold row_waypoints.
  rewrite nth_error_map, x_coords_nth by exact Hc. reflexivity.
Qed.

(** Every waypoint of a row, by column. *)
Lemma in_row_waypoints (sdx adx ady : Q) (num_cols : Z) (h v : Q) (r : Z) (w : Waypoint) :
  In w (row_waypoints sdx adx ady num_cols h v r) ->
  exists c : Z, (0 <= c < num_cols)%Z /\
    w = {| x := if (r mod 2 =? 0)%Z
                then inject_Z c * adx else sdx - inject_Z c * adx;
           y := inject_Z r * ady; z := h; speed := v |}.
Proof.
  unfold row_waypoints, x_coords. intros H.
  apply in_map_iff in H. destruct H as (xc & <- & H).
  destruct (r mod 2 =? 0)%Z; apply in_map_iff in H;
    destruct H as (c & <- & H); apply in_range in H; exists c; auto.
Qed.

(** ** The plan on valid inputs *)

Lemma plan_valid (camera : Camera) (dataset_spec : DatasetSpec) :
  valid_camera camera -> valid_spec dataset_spec ->
  exists dx dy v,
    compute_distance_between_images camera dataset_spec = Some (dx, dy) /\
    0 < dx /\ 0 < dy /\
    compute_speed_during_photo_capture camera dataset_spec
      default_allowed_movement_px = Some v /\
    0 < v /\
    plan_grid camera dataset_spec
    = Some (spec_lines (scan_dimension_y dataset_spec) dy,
            spec_lines (scan_dimension_x dataset_spec) dx,
            actual_distance (scan_dimension_x dataset_spec)
              (spec_lines (scan_dimension_x dataset_spec) dx),
            actual_distance (scan_dimension_y dataset_spec)
              (spec_lines (scan_dimension_y dataset_spec) dy)) /\
    generate_photo_plan_on_grid camera dataset_spec
    = Some (flat_map
              (row_waypoints (scan_dimension_x dataset_spec)
                 (actual_distance (scan_dimension_x dataset_spec)
                    (spec_lines (scan_dimension_x dataset_spec) dx))
                 (actual_distance (scan_dimension_y dataset_spec)
                    (spec_lines (scan_dimension_y dataset_spec) dy))
                 (spec_lines (scan_dimension_x dataset_spec) dx)
                 (height dataset_spec) v)
              (range (spec_lines (scan_dimension_y dataset_spec) dy))).
Proof.
  intros Hc Hs.
  destruct (distance_between_images_valid _ _ Hc Hs) as (dx & dy & Ed & Hdx & Hdy).
  destruct Hc as (Hfx & Hfy & _).
  destruct Hs as (_ & _ & Hh & _ & _ & He).
  exists dx, dy. eexists. split; [exact Ed |].
  split; [exact Hdx |]. split; [exact Hdy |].
  split; [apply speed_valid; lra |].
  split.
  - unfold default_allowed_movement_px.
    apply Qdiv_pos; [| apply Qdiv_pos; lra].
    pose proof (Qdiv_pos _ _ Hh (Qmin_pos _ _ Hfx Hfy)). lra.
  - split.
    + unfold plan_grid. rewrite Ed. cbn [bind fst snd].
      rewrite !num_intervals_defined by lra. reflexivity.
    + unfold generate_photo_plan_on_grid.
      rewrite Ed. cbn [bind fst snd].
      rewrite speed_valid by lra. cbn [bind].
      rewrite !first_num_lines_defined by lra. cbn [bind].
      rewrite !num_intervals_defined by lra. reflexivity.
Qed.

(** ** The plan as a grid of rows *)

Section Grid.

Variables (sdx adx ady : Q) (num_rows num_cols : Z) (h v : Q).

Local Abbreviation plan :=
  (flat_map (row_waypoints sdx adx ady num_cols h v) (range num_rows)).

Lemma grid_length :
  length plan = (Z.to_nat num_rows * Z.to_nat num_cols)%nat.
Proof.
  rewrite (flat_map_length_rows _ (Z.to_nat num_cols)), range_length;
    [reflexivity |].
  intros r. apply row_waypoints_length.
Qed.

Lemma grid_nth (r c : nat) :
  (r < Z.to_nat num_rows)%nat -> (c < Z.to_nat num_cols)%nat ->
  nth_error plan (r * Z.to_nat num_cols + c)
  = Some {| x := if (Z.of_nat r mod 2 =? 0)%Z
                 then inject_Z (Z.of_nat c) * adx
                 else sdx - inject_Z (Z.of_nat c) * adx;
            y := inject_Z (Z.of_nat r) * ady; z := h; speed := v |}.
Proof.
  intros Hr Hc.
  rewrite (flat_map_nth_rows _ (Z.to_nat num_cols)) with (a := Z.of_nat r).
  - apply row_waypoints_nth, Hc.
  - intros r0. apply row_waypoints_length.
  - apply range_nth, Hr.
  - exact Hc.
Qed.

Lemma grid_in (w : Waypoint) :
  In w plan ->
  exists r c : Z, (0 <= r < num_rows)%Z /\ (0 <= c < num_cols)%Z /\
    w = {| x := if (r mod 2 =? 0)%Z
                then inject_Z c * adx else sdx - inject_Z c * adx;
           y := inject_Z r * ady; z := h; speed := v |}.
Proof.
  intros H. apply in_flat_map in H.
  destruct H as (r & Hr & Hw). apply in_range in Hr.
  apply in_row_waypoints in Hw. destruct Hw as (c & Hc & ->).
  exists r, c. auto.
Qed.

End Grid.

Lemma sample_camera_valid : valid_camera sample_camera.
Proof. unfold valid_camera; cbn. repeat split. Qed.

Lemma sample_spec_valid : valid_spec sample_spec.
Proof. unfold valid_spec; cbn. repeat split; discriminate. Qed.

(** ** Spacing *)

Lemma spec_lines_pos (scan_dim ideal_distance : Q) :
  0 <= scan_dim -> 0 < ideal_distance ->
  (1 <= spec_lines scan_dim ideal_distance)%Z.
Proof.
  intros Hs Hi. unfold spec_lines.
  pose proof (spec_intervals_nonneg _ _ Hs Hi). lia.
Qed.

(** ** Degenerate scans *)

Lemma spec_lines_zero (scan_dim ideal_distance : Q) :
  scan_dim == 0 -> spec_lines scan_dim ideal_distance = 1%Z.
Proof.
  intros H. unfold spec_lines, spec_intervals.
  apply Qeq_eq_bool in H. rewrite H. reflexivity.
Qed.

(** C4.  On a valid camera and a valid specification whose two scan
    dimensions are 0, [generate_photo_plan_on_grid] returns exactly one
    waypoint, [(0, 0, height, compute_speed_during_photo_capture)]. *)
Theorem single_point_plan (camera : Camera) (dataset_spec : DatasetSpec) :
  valid_camera camera -> valid_spec dataset_spec ->
  scan_dimension_x dataset_spec == 0 -> scan_dimension_y dataset_spec == 0 ->
  exists capture_speed,
    compute_speed_during_photo_capture camera dataset_spec
      default_allowed_movement_px = Some capture_speed /\
    generate_photo_plan_on_grid camera dataset_spec
    = Some [ {| x := 0; y := 0; z := height dataset_spec;
                speed := capture_speed |} ].
Proof.
  intros Hc Hs Hx Hy.
  destruct (plan_valid _ _ Hc Hs) as (dx & dy & v & _ & _ & _ & Ev & _ & _ & Ep).
  exists v. split; [exact Ev |].
  rewrite Ep. rewrite !(spec_lines_zero _ _ Hx), !(spec_lines_zero _ _ Hy).
  reflexivity.
Qed.

Lemma sample_point_spec_valid : valid_spec sample_point_spec.
Proof. unfold valid_spec; cbn. repeat split; discriminate. Qed.

Lemma single_point_plan_witness :
  exists capture_speed,
    compute_speed_during_photo_capture sample_camera sample_point_spec
      default_allowed_movement_px = Some capture_speed /\
    generate_photo_plan_on_grid sample_camera sample_point_spec
    = Some [ {| x := 0; y := 0; z := 60; speed := capture_speed |} ].
Proof.
  apply (single_point_plan sample_camera sample_point_spec
           sample_camera_valid sample_point_spec_valid); reflexivity.
Defined.

(** ** Constant height and speed *)

(** C5.  On valid inputs the returned plan is non-empty, every waypoint has
    [z = height] and [speed = compute_speed_during_photo_capture(camera,
    dataset_spec)], and that common speed is non-negative. *)
Theorem constant_height_and_speed (camera : Camera) (dataset_spec : DatasetSpec) :
  valid_camera camera -> valid_spec dataset_spec ->
  exists capture_speed plan,
    compute_speed_during_photo_capture camera dataset_spec
      default_allowed_movement_px = Some capture_speed /\
    generate_photo_plan_on_grid camera dataset_spec = Some plan /\
    plan <> [] /\
    0 <= capture_speed /\
    forall w, In w plan ->
      z w = height dataset_spec /\ speed w = capture_speed.
Proof.
  intros Hc Hs.
  destruct (plan_valid _ _ Hc Hs) as (dx & dy & v & _ & Hdx & Hdy & Ev & Hv & _ & Ep).
  destruct Hs as (_ & _ & _ & Hsx & Hsy & _).
  exists v. eexists. split; [exact Ev |]. split; [exact Ep |].
  split; [| split; [lra |]].
  - intros E. apply (f_equal (@length Waypoint)) in E.
    rewrite grid_length in E. cbn [length] in E.
    pose proof (spec_lines_pos _ _ Hsx Hdx).
    pose proof (spec_lines_pos _ _ Hsy Hdy). nia.
  - intros w Hw. apply grid_in in Hw.
    destruct Hw as (r & c & _ & _ & ->). split; reflexivity.
Qed.

Lemma constant_height_and_speed_witness :
  exists plan,
    generate_photo_plan_on_grid sample_camera sample_spec = Some plan /\
    plan <> [] /\
    forall w, In w plan -> z w = 60 /\ speed w = 60000 # 2000.
Proof.
  destruct (constant_height_and_speed sample_camera sample_spec
              sample_camera_valid sample_spec_valid)
    as (v & plan & Ev & Ep & Hne & _ & H).
  vm_compute in Ev. injection Ev as <-.
  exists plan. auto.
Defined.

(** ** Speed and ground sampling distance *)

(** C8.  [compute_speed_during_photo_capture(camera, dataset_spec,
    allowed_movement_px)] is [gsd * allowed_movement_px /
    (exposure_time_ms / 1000)] with [gsd] the ground sampling distance at the
    flight height, [allowed_movement_px] defaults to 1, and halving
    [exposure_time_ms] doubles the speed.  The hypotheses say that the two
    divisions are defined. *)
Theorem speed_formula (camera : Camera) (dataset_spec : DatasetSpec) (allowed_movement_px : Q) :
  ~ Qmin (fx camera) (fy camera) == 0 ->
  ~ exposure_time_ms dataset_spec == 0 ->
  exists gsd v v_half,
    compute_ground_sampling_distance camera (height dataset_spec) = Some gsd /\
    compute_speed_during_photo_capture camera dataset_spec allowed_movement_px
    = Some v /\
    v == gsd * allowed_movement_px / (exposure_time_ms dataset_spec / 1000) /\
    default_allowed_movement_px == 1 /\
    compute_speed_during_photo_capture camera
      (with_exposure_time_ms dataset_spec (exposure_time_ms dataset_spec / 2))
      allowed_movement_px
    = Some v_half /\
    v_half == 2 * v.
Proof.
  intros Hm He.
  assert (He2 : ~ exposure_time_ms dataset_spec / 2 == 0).
  { intros H. apply He.
    setoid_replace (exposure_time_ms dataset_spec)
      with (exposure_time_ms dataset_spec / 2 * 2) by (field; lra).
    rewrite H. ring. }
  eexists _, _, _.
  split; [apply ground_sampling_distance_defined, Hm |].
  split; [apply speed_defined; assumption |].
  split; [reflexivity |]. split; [reflexivity |].
  split; [apply speed_defined; assumption |].
  cbn [with_exposure_time_ms height exposure_time_ms].
  field. auto.
Qed.

Lemma speed_formula_witness :
  compute_speed_during_photo_capture sample_camera sample_spec 1 = Some (60000 # 2000) /\
  exists v_half,
    compute_speed_during_photo_capture sample_camera
      (with_exposure_time_ms sample_spec (2 / 2)) 1 = Some v_half /\
    v_half == 60.
Proof.
  split; [reflexivity |].
  destruct (speed_formula sample_camera sample_spec 1)
    as (g & v & v_half & _ & Ev & _ & _ & Eh & Hh);
    [discriminate | discriminate |].
  vm_compute in Ev. injection Ev as <-.
  exists v_half. split; [exact Eh | rewrite Hh; reflexivity].
Defined.

Lemma Qdiv_le_divisor (d a b : Q) :
  0 <= d -> 0 < a -> a <= b -> d / b <= d / a.
Proof.
  intros Hd Ha Hab.
  apply Qle_shift_div_r; [lra |].
  pose proof (Qdiv_nonneg d a Hd Ha) as Hq.
  assert (E : d == d / a * a) by (field; lra).
  apply Qle_trans with (d / a * a); [lra |].
  rewrite !(Qmult_comm (d / a)). apply Qmult_le_compat_r; assumption.
Qed.

(** C9.  For a camera with [fx > 0] and [fy > 0] and every distance,
    [compute_ground_sampling_distance] returns
    [distance_from_surface / min(fx, fy)]; for a positive distance this is
    the larger of the per-axis resolutions [distance / fx] and
    [distance / fy]; and doubling the distance doubles the result. *)
Theorem ground_sampling_distance_formula (camera : Camera) (distance_from_surface : Q) :
  0 < fx camera -> 0 < fy camera ->
  exists gsd gsd_twice,
    compute_ground_sampling_distance camera distance_from_surface = Some gsd /\
    gsd == distance_from_surface / Qmin (fx camera) (fy camera) /\
    (0 < distance_from_surface ->
     gsd == Qmax (distance_from_surface / fx camera)
                 (distance_from_surface / fy camera)) /\
    compute_ground_sampling_distance camera (2 * distance_from_surface)
    = Some gsd_twice /\
    gsd_twice == 2 * gsd.
Proof.
  intros Hfx Hfy. pose proof (Qmin_pos _ _ Hfx Hfy) as Hm.
  eexists _, _.
  split; [apply ground_sampling_distance_defined; lra |].
  split; [reflexivity |].
  split; [| split; [apply ground_sampling_distance_defined; lra | field; lra]].
  intros Hd.
  destruct (Q.min_spec (fx camera) (fy camera)) as [[Hlt E] | [Hle E]]; rewrite E.
  - symmetry. apply Q.max_l. apply Qdiv_le_divisor; lra.
  - symmetry. apply Q.max_r. apply Qdiv_le_divisor; lra.
Qed.

Lemma ground_sampling_distance_formula_witness :
  exists gsd gsd_twice,
    compute_ground_sampling_distance narrow_camera 60 = Some gsd /\
    gsd == 60 / 800 /\
    compute_ground_sampling_distance narrow_camera (2 * 60) = Some gsd_twice /\
    gsd_twice == 2 * gsd.
Proof.
  destruct (ground_sampling_distance_formula narrow_camera 60)
    as (g & g2 & Eg & Hg & _ & Eg2 & Hg2); [reflexivity | reflexivity |].
  exists g, g2. repeat split; assumption.
Defined.

(** ** Projection of a point at depth zero (binary64) *)

(** Where the exact model and binary64 part: [n * (d / n)] is [d] over the
    rationals, and can be one unit in the last place away from it in
    binary64. *)
Remark binary64_rounding : (49 * (1 / 49) =? 1)%float = false.
Proof. reflexivity. Qed.

Lemma nonfinite_not_finite (f : float) :
  binary64.nonfinite (Prim2SF f) = true -> is_finite f = false.
Proof.
  intros H. unfold is_finite, is_nan, is_infinity.
  rewrite !eqb_spec, abs_spec.
  destruct (Prim2SF f) as [s | [|] | | s m e]; try discriminate; reflexivity.
Qed.

Lemma eqb_zero (f : float) :
  (f =? 0)%float = true -> exists s, Prim2SF f = S754_zero s.
Proof.
  rewrite eqb_spec. change (Prim2SF 0) with (S754_zero false).
  destruct (Prim2SF f) as [s | s | | s m e]; try discriminate.
  - intros _. exists s. reflexivity.
  - destruct s; discriminate.
  - destruct s; discriminate.
Qed.

Lemma div_by_zero_nonfinite (a b : float) :
  (b =? 0)%float = true -> binary64.nonfinite (Prim2SF (a / b)) = true.
Proof.
  intros H. destruct (eqb_zero b H) as (s & E).
  rewrite div_spec, E.
  destruct (Prim2SF a) as [sa | sa | | sa m e]; reflexivity.
Qed.

Lemma mul_nonfinite (a b : float) :
  binary64.nonfinite (Prim2SF b) = true ->
  binary64.nonfinite (Prim2SF (a * b)) = true.
Proof.
  intros H. rewrite mul_spec.
  destruct (Prim2SF b) as [sb | sb | | sb mb eb]; try discriminate;
    destruct (Prim2SF a) as [sa | sa | | sa ma ea]; reflexivity.
Qed.

Lemma add_nonfinite (a b : float) :
  binary64.nonfinite (Prim2SF a) = true ->
  binary64.nonfinite (Prim2SF (a + b)) = true.
Proof.
  intros H. rewrite add_spec.
  destruct (Prim2SF a) as [sa | sa | | sa ma ea]; try discriminate;
    destruct (Prim2SF b) as [sb | sb | | sb mb eb]; try reflexivity;
    destruct sa, sb; reflexivity.
Qed.

(** C6, as the code has it.  For every camera and every point whose third
    coordinate is zero, [project_world_point_to_image] raises nothing: it
    returns the pair [(fx * (X / Z) + cx, fy * (Y / Z) + cy)] of binary64
    numbers, and neither coordinate is finite (each is an infinity or a
    NaN). *)
Theorem projection_at_zero_depth
    (camera : binary64.Camera) (X Y Z : float) (rest : list float) :
  (Z =? 0)%float = true ->
  exists u v,
    binary64.project_world_point_to_image camera (X :: Y :: Z :: rest)
    = binary64.Returns (u, v) /\
    u = (binary64.fx camera * (X / Z) + binary64.cx camera)%float /\
    v = (binary64.fy camera * (Y / Z) + binary64.cy camera)%float /\
    is_finite u = false /\ is_finite v = false.
Proof.
  intros HZ. eexists _, _.
  split; [reflexivity |]. split; [reflexivity |]. split; [reflexivity |].
  split; apply nonfinite_not_finite, add_nonfinite, mul_nonfinite,
    div_by_zero_nonfinite, HZ.
Qed.

Lemma projection_at_zero_depth_witness :
  exists u v,
    binary64.project_world_point_to_image binary64.sample_camera
      [1%float; 0%float; 0%float]
    = binary64.Returns (u, v) /\
    is_finite u = false /\ is_finite v = false.
Proof.
  destruct (projection_at_zero_depth binary64.sample_camera 1 0 0 [])
    as (u & v & E & _ & _ & Hu & Hv); [reflexivity |].
  exists u, v. auto.
Defined.

(** C6, as the specification has it, fails: at depth zero the function
    returns infinite pixel coordinates and raises nothing. *)
Lemma projection_at_zero_depth_returns_infinity :
  nth_error [1%float; 1%float; 0%float] 2 = Some 0%float /\
  binary64.project_world_point_to_image binary64.sample_camera
    [1%float; 1%float; 0%float]
  = binary64.Returns (infinity, infinity) /\
  ~ (exists e,
        binary64.project_world_point_to_image binary64.sample_camera
          [1%float; 1%float; 0%float]
        = binary64.Raises e).
Proof.
  split; [reflexivity |]. split; [reflexivity |].
  intros (e & H). discriminate H.
Qed.

(** * Further properties of the code *)

(** ** Where the camera geometry is defined *)

Lemma div_none (a b : Q) : div a b = None <-> b == 0.
Proof.
  unfold div. destruct (Qeq_bool b 0) eqn:E.
  - apply Qeq_bool_eq in E. tauto.
  - split; [discriminate |]. intros H. apply Qeq_eq_bool in H. congruence.
Qed.

Lemma Qmult_nonzero (a b : Q) : ~ a == 0 -> ~ b == 0 -> ~ a * b == 0.
Proof.
  intros Ha Hb H. apply Qmult_integral in H. tauto.
Qed.

Lemma Qdiv_nonzero (a b : Q) : ~ a == 0 -> ~ b == 0 -> ~ a / b == 0.
Proof.
  intros Ha Hb H. apply Ha.
  setoid_replace a with (a / b * b) by (field; exact Hb).
  rewrite H. ring.
Qed.

Lemma focal_length_defined (camera : Camera) :
  ~ image_size_x camera == 0 -> ~ image_size_y camera == 0 ->
  compute_focal_length_in_mm camera
  = Some (fx camera * (sensor_size_x_mm camera / image_size_x camera),
          fy camera * (sensor_size_y_mm camera / image_size_y camera)).
Proof.
  intros Hx Hy. unfold compute_focal_length_in_mm.
  rewrite !div_defined by assumption. reflexivity.
Qed.

(** The camera fields that the footprint divides by. *)
Lemma footprint_defined (camera : Camera) (d : Q) :
  ~ image_size_x camera == 0 -> ~ image_size_y camera == 0 ->
  ~ sensor_size_x_mm camera == 0 -> ~ sensor_size_y_mm camera == 0 ->
  ~ fx camera == 0 -> ~ fy camera == 0 ->
  exists fpx fpy,
    compute_image_footprint_on_surface camera d = Some (fpx, fpy) /\
    fpx == d * image_size_x camera / fx camera /\
    fpy == d * image_size_y camera / fy camera.
Proof.
  intros Hix Hiy Hsx Hsy Hfx Hfy.
  unfold compute_image_footprint_on_surface.
  rewrite focal_length_defined by assumption. cbn [bind fst snd].
  rewrite !div_defined
    by (apply Qmult_nonzero; [| apply Qdiv_nonzero]; assumption).
  cbn [bind ret]. eexists _, _. split; [reflexivity |].
  split; field; auto.
Qed.

(** ** Image spacing and overlap *)

Lemma distance_of_footprint (camera : Camera) (dataset_spec : DatasetSpec) (fpx fpy : Q) :
  compute_image_footprint_on_surface camera (height dataset_spec)
  = Some (fpx, fpy) ->
  compute_distance_between_images camera dataset_spec
  = Some (fpx * (1 - overlap dataset_spec), fpy * (1 - sidelap dataset_spec)).
Proof.
  intros E. unfold compute_distance_between_images. rewrite E. reflexivity.
Qed.

Lemma spec_intervals_antitone (scan_dim ideal ideal' : Q) :
  0 <= scan_dim -> 0 < ideal' -> ideal' <= ideal ->
  (spec_intervals scan_dim ideal <= spec_intervals scan_dim ideal')%Z.
Proof.
  intros Hs Hi Hle. unfold spec_intervals.
  destruct (Qeq_bool scan_dim 0); [lia |].
  apply Qceiling_resp_le, Qdiv_le_divisor; assumption.
Qed.

(** X9.  On valid inputs the spacing of [compute_distance_between_images] is
    positive and at most the footprint of one image on each axis, and equals
    the footprint when the overlap (sidelap) is zero. *)
Theorem spacing_within_footprint (camera : Camera) (dataset_spec : DatasetSpec) :
  valid_camera camera -> valid_spec dataset_spec ->
  exists fpx fpy dx dy,
    compute_image_footprint_on_surface camera (height dataset_spec)
    = Some (fpx, fpy) /\
    compute_distance_between_images camera dataset_spec = Some (dx, dy) /\
    (0 < dx /\ dx <= fpx) /\ (0 < dy /\ dy <= fpy) /\
    (overlap dataset_spec == 0 -> dx == fpx) /\
    (sidelap dataset_spec == 0 -> dy == fpy).
Proof.
  intros Hc ((Ho0 & Ho1) & (Hs0 & Hs1) & Hh & _).
  destruct (footprint_valid camera (height dataset_spec) Hc Hh)
    as (fpx & fpy & E & Hx & Hy).
  exists fpx, fpy. eexists _, _.
  split; [exact E |].
  split; [apply distance_of_footprint, E |].
  repeat split.
  - apply Qmult_lt_0_compat; lra.
  - rewrite <- (Qmult_1_r fpx) at 2. apply Qmult_le_l; lra.
  - apply Qmult_lt_0_compat; lra.
  - rewrite <- (Qmult_1_r fpy) at 2. apply Qmult_le_l; lra.
  - intros H. rewrite H. ring.
  - intros H. rewrite H. ring.
Qed.

Lemma spacing_within_footprint_witness :
  exists fpx fpy dx dy,
    compute_image_footprint_on_surface sample_camera 60 = Some (fpx, fpy) /\
    compute_distance_between_images sample_camera sample_spec = Some (dx, dy) /\
    (0 < dx /\ dx <= fpx) /\ (0 < dy /\ dy <= fpy).
Proof.
  destruct (spacing_within_footprint sample_camera sample_spec
              sample_camera_valid sample_spec_valid)
    as (fpx & fpy & dx & dy & E & Ed & Hx & Hy & _).
  exists fpx, fpy, dx, dy. auto.
Defined.

(** X11.  Asking for more overlap never gives a shorter plan: on valid
    inputs, raising the overlap and the sidelap (within [[0, 1)]) leaves the
    number of waypoints the same or larger. *)
Theorem more_overlap_more_waypoints
    (camera : Camera) (dataset_spec : DatasetSpec) (o s : Q) :
  valid_camera camera -> valid_spec dataset_spec ->
  overlap dataset_spec <= o -> o < 1 ->
  sidelap dataset_spec <= s -> s < 1 ->
  exists plan plan',
    generate_photo_plan_on_grid camera dataset_spec = Some plan /\
    generate_photo_plan_on_grid camera (with_overlap dataset_spec o s)
    = Some plan' /\
    (length plan <= length plan')%nat.
Proof.
  intros Hc Hs Ho Ho1 Hsl Hs1.
  assert (Hs' : valid_spec (with_overlap dataset_spec o s)).
  { destruct Hs as ((Ho0 & _) & (Hs0 & _) & Hh & Hsx & Hsy & He).
    unfold valid_spec, with_overlap; cbn. repeat split; try assumption; lra. }
  destruct (plan_valid _ _ Hc Hs) as (dx & dy & v & Ed & Hdx & Hdy & _ & _ & _ & Ep).
  destruct (plan_valid _ _ Hc Hs')
    as (dx' & dy' & v' & Ed' & Hdx' & Hdy' & _ & _ & _ & Ep').
  destruct Hs as ((Ho0 & _) & (Hs0 & _) & Hh & Hsx & Hsy & He).
  destruct (footprint_valid camera (height dataset_spec) Hc Hh)
    as (fpx & fpy & E & Hx & Hy).
  rewrite (distance_of_footprint _ _ _ _ E) in Ed. injection Ed as <- <-.
  rewrite (distance_of_footprint camera (with_overlap dataset_spec o s) fpx fpy E)
    in Ed'.
  injection Ed' as <- <-.
  cbn [with_overlap overlap sidelap scan_dimension_x scan_dimension_y height] in *.
  eexists _, _. split; [exact Ep |]. split; [exact Ep' |].
  rewrite !grid_length. unfold spec_lines.
  assert (Lx : fpx * (1 - o) <= fpx * (1 - overlap dataset_spec))
    by (apply Qmult_le_l; lra).
  assert (Ly : fpy * (1 - s) <= fpy * (1 - sidelap dataset_spec))
    by (apply Qmult_le_l; lra).
  pose proof (spec_intervals_antitone _ _ _ Hsx Hdx' Lx).
  pose proof (spec_intervals_antitone _ _ _ Hsy Hdy' Ly).
  pose proof (spec_intervals_nonneg _ _ Hsx Hdx).
  pose proof (spec_intervals_nonneg _ _ Hsy Hdy).
  apply Nat.mul_le_mono; lia.
Qed.

Lemma more_overlap_more_waypoints_witness :
  exists plan plan',
    generate_photo_plan_on_grid sample_camera sample_spec = Some plan /\
    generate_photo_plan_on_grid sample_camera
      (with_overlap sample_spec (3 # 4) (3 # 4)) = Some plan' /\
    (length plan <= length plan')%nat.
Proof.
  apply (more_overlap_more_waypoints sample_camera sample_spec (3 # 4) (3 # 4)
           sample_camera_valid sample_spec_valid);
    solve [reflexivity | discriminate].
Defined.

(** ** The flight path *)

Lemma grid_index (nr nc i : nat) :
  (i < nr * nc)%nat ->
  exists r c, (r < nr)%nat /\ (c < nc)%nat /\ i = (r * nc + c)%nat.
Proof.
  intros Hi.
  assert (Hnc : nc <> 0%nat) by nia.
  exists (i / nc)%nat, (i mod nc)%nat.
  split; [apply Nat.Div0.div_lt_upper_bound; lia |].
  split; [apply Nat.mod_upper_bound; exact Hnc |].
  rewrite (Nat.div_mod_eq i nc) at 1. lia.
Qed.

Lemma actual_distance_pos (scan_dim ideal_distance : Q) :
  0 <= scan_dim -> 0 < ideal_distance ->
  (1 < spec_lines scan_dim ideal_distance)%Z ->
  0 < actual_distance scan_dim (spec_lines scan_dim ideal_distance).
Proof.
  intros Hs Hi Hl.
  rewrite actual_distance_several by exact Hl.
  apply Qdiv_pos; [| apply inject_Z_pos; lia].
  destruct (Qlt_le_dec 0 scan_dim) as [Hp | Hn]; [exact Hp |].
  assert (E : scan_dim == 0) by lra.
  rewrite (spec_lines_zero _ _ E) in Hl. lia.
Qed.

Lemma multiple_injective (a : Q) (m n : Z) :
  0 < a -> inject_Z m * a == inject_Z n * a -> m = n.
Proof.
  intros Ha H. apply Qmult_inj_r in H; [| lra].
  apply inject_Z_injective, H.
Qed.

(** A waypoint of the plan, by its position in the list. *)
Lemma grid_nth_inv (sdx adx ady : Q) (num_rows num_cols : Z) (h v : Q)
    (i : nat) (w : Waypoint) :
  nth_error
    (flat_map (row_waypoints sdx adx ady num_cols h v) (range num_rows)) i
  = Some w ->
  exists r c,
    (r < Z.to_nat num_rows)%nat /\ (c < Z.to_nat num_cols)%nat /\
    i = (r * Z.to_nat num_cols + c)%nat /\
    w = {| x := if (Z.of_nat r mod 2 =? 0)%Z
                then inject_Z (Z.of_nat c) * adx
                else sdx - inject_Z (Z.of_nat c) * adx;
           y := inject_Z (Z.of_nat r) * ady; z := h; speed := v |}.
Proof.
  intros H.
  assert (Hi : (i < Z.to_nat num_rows * Z.to_nat num_cols)%nat).
  { rewrite <- (grid_length sdx adx ady num_rows num_cols h v).
    apply nth_error_Some. congruence. }
  destruct (grid_index _ _ i Hi) as (r & c & Hr & Hc & ->).
  exists r, c. split; [exact Hr |]. split; [exact Hc |].
  split; [reflexivity |].
  rewrite grid_nth in H by assumption. congruence.
Qed.

(** X14.  No position is visited twice: on valid inputs two waypoints of the
    plan with the same [x] and the same [y] are the same entry of the
    list. *)
Theorem positions_distinct (camera : Camera) (dataset_spec : DatasetSpec) :
  valid_camera camera -> valid_spec dataset_spec ->
  exists plan,
    generate_photo_plan_on_grid camera dataset_spec = Some plan /\
    forall (i j : nat) (a b : Waypoint),
      nth_error plan i = Some a -> nth_error plan j = Some b ->
      x a == x b -> y a == y b -> i = j.
Proof.
  intros Hc Hs.
  destruct (plan_valid _ _ Hc Hs) as (dx & dy & v & Ed & Hdx & Hdy & _ & _ & _ & Ep).
  destruct Hs as (_ & _ & _ & Hsx & Hsy & _).
  eexists. split; [exact Ep |].
  intros i j a b Ha Hb Hx Hy.
  apply grid_nth_inv in Ha. destruct Ha as (r & c & Hr & Hcc & -> & ->).
  apply grid_nth_inv in Hb. destruct Hb as (r' & c' & Hr' & Hcc' & -> & ->).
  cbn [x y] in Hx, Hy.
  assert (Er : r = r').
  { destruct (Z_lt_le_dec 1 (spec_lines (scan_dimension_y dataset_spec) dy))
      as [Hl | Hl]; [| lia].
    pose proof (actual_distance_pos _ _ Hsy Hdy Hl) as Hp.
    apply (multiple_injective _ _ _ Hp) in Hy. lia. }
  subst r'.
  assert (Ec : c = c').
  { destruct (Z_lt_le_dec 1 (spec_lines (scan_dimension_x dataset_spec) dx))
      as [Hl | Hl]; [| lia].
    pose proof (actual_distance_pos _ _ Hsx Hdx Hl) as Hp.
    enough (Z.of_nat c = Z.of_nat c') by lia.
    apply (multiple_injective _ _ _ Hp).
    destruct (Z.of_nat r mod 2 =? 0)%Z; lra. }
  subst c'. reflexivity.
Qed.

Lemma positions_distinct_witness :
  exists plan,
    generate_photo_plan_on_grid sample_camera sample_spec = Some plan /\
    forall (i j : nat) (a b : Waypoint),
      nth_error plan i = Some a -> nth_error plan j = Some b ->
      x a == x b -> y a == y b -> i = j.
Proof.
  exact (positions_distinct sample_camera sample_spec
           sample_camera_valid sample_spec_valid).
Defined.

(** X15.  Rows are flown in ascending [y]: on valid inputs a waypoint that
    comes later in the plan never has a smaller [y]. *)
Theorem rows_ascending (camera : Camera) (dataset_spec : DatasetSpec) :
  valid_camera camera -> valid_spec dataset_spec ->
  exists plan,
    generate_photo_plan_on_grid camera dataset_spec = Some plan /\
    forall (i j : nat) (a b : Waypoint),
      (i <= j)%nat ->
      nth_error plan i = Some a -> nth_error plan j = Some b ->
      y a <= y b.
Proof.
  intros Hc Hs.
  destruct (plan_valid _ _ Hc Hs) as (dx & dy & v & Ed & Hdx & Hdy & _ & _ & _ & Ep).
  destruct Hs as (_ & _ & _ & Hsx & Hsy & _).
  eexists. split; [exact Ep |].
  intros i j a b Hij Ha Hb.
  apply grid_nth_inv in Ha. destruct Ha as (r & c & Hr & Hcc & -> & ->).
  apply grid_nth_inv in Hb. destruct Hb as (r' & c' & Hr' & Hcc' & -> & ->).
  cbn [y].
  apply Qmult_le_compat_r; [| apply actual_distance_nonneg, Hsy].
  rewrite <- Zle_Qle. nia.
Qed.

Lemma rows_ascending_witness :
  exists plan,
    generate_photo_plan_on_grid sample_camera sample_spec = Some plan /\
    forall (i j : nat) (a b : Waypoint),
      (i <= j)%nat ->
      nth_error plan i = Some a -> nth_error plan j = Some b ->
      y a <= y b.
Proof.
  exact (rows_ascending sample_camera sample_spec
           sample_camera_valid sample_spec_valid).
Defined.

(** ** Plans at the edges of the input domain *)

Lemma Qmin_nonzero (a b : Q) : ~ a == 0 -> ~ b == 0 -> ~ Qmin a b == 0.
Proof.
  intros Ha Hb. destruct (Q.min_spec a b) as [[_ E] | [_ E]]; rewrite E; assumption.
Qed.

Lemma first_num_lines_zero (scan_dim ideal_distance : Q) :
  scan_dim == 0 -> first_num_lines scan_dim ideal_distance = Some 1%Z.
Proof.
  intros H. unfold first_num_lines. apply Qeq_eq_bool in H. rewrite H. reflexivity.
Qed.

Lemma num_intervals_zero (scan_dim ideal_distance : Q) :
  scan_dim == 0 -> num_intervals scan_dim ideal_distance = Some 0%Z.
Proof.
  intros H. unfold num_intervals. apply Qeq_eq_bool in H. rewrite H. reflexivity.
Qed.

Lemma first_num_lines_no_spacing (scan_dim ideal_distance : Q) :
  ~ scan_dim == 0 -> ideal_distance == 0 ->
  first_num_lines scan_dim ideal_distance = None.
Proof.
  intros Hs Hi. unfold first_num_lines.
  destruct (Qeq_bool scan_dim 0) eqn:E.
  - apply Qeq_bool_eq in E. contradiction.
  - apply (div_none scan_dim) in Hi. rewrite Hi. reflexivity.
Qed.

(** X16.  A scan of zero extent never divides by the image spacing: with
    both scan dimensions zero the plan is the single waypoint
    [(0, 0, height, speed)] for every overlap, sidelap and height, also
    outside their valid ranges, as long as the camera fields and the exposure
    time that the footprint and the speed divide by are nonzero. *)
Theorem point_scan_ignores_overlap (camera : Camera) (dataset_spec : DatasetSpec) :
  ~ image_size_x camera == 0 -> ~ image_size_y camera == 0 ->
  ~ sensor_size_x_mm camera == 0 -> ~ sensor_size_y_mm camera == 0 ->
  ~ fx camera == 0 -> ~ fy camera == 0 ->
  ~ exposure_time_ms dataset_spec == 0 ->
  scan_dimension_x dataset_spec == 0 -> scan_dimension_y dataset_spec == 0 ->
  exists capture_speed,
    compute_speed_during_photo_capture camera dataset_spec
      default_allowed_movement_px = Some capture_speed /\
    generate_photo_plan_on_grid camera dataset_spec
    = Some [ {| x := 0; y := 0; z := height dataset_spec;
                speed := capture_speed |} ].
Proof.
  intros Hix Hiy Hsx Hsy Hfx Hfy He Hx Hy.
  destruct (footprint_defined camera (height dataset_spec))
    as (fpx & fpy & E & _ & _); try assumption.
  pose proof (Qmin_nonzero _ _ Hfx Hfy) as Hm.
  eexists. split; [apply speed_defined; assumption |].
  unfold generate_photo_plan_on_grid.
  rewrite (distance_of_footprint _ _ _ _ E). cbn [bind fst snd].
  rewrite speed_defined by assumption. cbn [bind].
  rewrite !(first_num_lines_zero _ _ Hx), !(first_num_lines_zero _ _ Hy).
  cbn [bind].
  rewrite !(num_intervals_zero _ _ Hx), !(num_intervals_zero _ _ Hy).
  reflexivity.
Qed.

Lemma point_scan_ignores_overlap_witness :
  exists capture_speed,
    generate_photo_plan_on_grid sample_camera
      (with_overlap sample_point_spec 1 (3 # 2))
    = Some [ {| x := 0; y := 0; z := 60; speed := capture_speed |} ].
Proof.
  destruct (point_scan_ignores_overlap sample_camera
              (with_overlap sample_point_spec 1 (3 # 2)))
    as (v & _ & E); try discriminate; try reflexivity.
  exists v. exact E.
Defined.

(** X17.  Full overlap over a nonzero extent gives no plan: if the overlap
    is 1 and [scan_dimension_x] is not 0, or the sidelap is 1 and
    [scan_dimension_y] is not 0, the ideal spacing on that axis is zero, the
    interval count divides by it, and [generate_photo_plan_on_grid] raises,
    for every camera. *)
Theorem full_overlap_has_no_plan (camera : Camera) (dataset_spec : DatasetSpec) :
  (overlap dataset_spec == 1 /\ ~ scan_dimension_x dataset_spec == 0) \/
  (sidelap dataset_spec == 1 /\ ~ scan_dimension_y dataset_spec == 0) ->
  generate_photo_plan_on_grid camera dataset_spec = None.
Proof.
  intros H. unfold generate_photo_plan_on_grid.
  destruct (compute_distance_between_images camera dataset_spec)
    as [[dx dy] |] eqn:Ed; [| reflexivity].
  cbn [bind fst snd].
  destruct (compute_speed_during_photo_capture camera dataset_spec
              default_allowed_movement_px) as [v |]; [| reflexivity].
  cbn [bind].
  unfold compute_distance_between_images in Ed.
  destruct (compute_image_footprint_on_surface camera (height dataset_spec))
    as [[fpx fpy] |]; [| discriminate].
  cbn [bind ret fst snd] in Ed. injection Ed as <- <-.
  destruct H as [[Ho Hs] | [Ho Hs]].
  - rewrite first_num_lines_no_spacing; [reflexivity | exact Hs |].
    rewrite Ho. ring.
  - destruct (first_num_lines (scan_dimension_x dataset_spec)
                (fpx * (1 - overlap dataset_spec))); [| reflexivity].
    cbn [bind].
    rewrite first_num_lines_no_spacing; [reflexivity | exact Hs |].
    rewrite Ho. ring.
Qed.

Lemma full_overlap_has_no_plan_witness :
  generate_photo_plan_on_grid sample_camera (with_overlap sample_spec 1 (1 # 2))
  = None.
Proof.
  apply full_overlap_has_no_plan. left. split; [reflexivity | discriminate].
Defined.

(** ** Projection in binary64 *)

(** X18.  [project_world_point_to_image] raises [IndexError] exactly when
    the point has fewer than three coordinates; with three or more it
    returns, and coordinates after the third are ignored. *)
Theorem projection_index_error (camera : binary64.Camera) (point : list float) :
  (binary64.project_world_point_to_image camera point
   = binary64.Raises binary64.IndexError
   <-> (length point < 3)%nat) /\
  (forall X Y Z rest,
      point = X :: Y :: Z :: rest ->
      binary64.project_world_point_to_image camera point
      = binary64.project_world_point_to_image camera [X; Y; Z]).
Proof.
  split.
  - destruct point as [| X [| Y [| Z rest]]]; cbn; split;
      try reflexivity; try lia; try discriminate.
  - intros X Y Z rest ->. reflexivity.
Qed.

Lemma SFeqb_refl (s : spec_float) : s <> S754_nan -> SFeqb s s = true.
Proof.
  intros H. destruct s as [b | b | | b m e]; try congruence.
  - reflexivity.
  - destruct b; reflexivity.
  - unfold SFeqb, SFcompare.
    destruct b; rewrite Z.compare_refl;
      change (Pos.compare_cont Eq m m) with (Pos.compare m m);
      rewrite Pos.compare_refl; reflexivity.
Qed.

Lemma not_nan (f : float) : is_nan f = false -> Prim2SF f <> S754_nan.
Proof.
  unfold is_nan. rewrite eqb_spec. intros H E. rewrite E in H. discriminate H.
Qed.

Lemma finite_cases (f : float) :
  is_finite f = true ->
  (exists s, Prim2SF f = S754_zero s) \/ (exists s m e, Prim2SF f = S754_finite s m e).
Proof.
  unfold is_finite, is_nan, is_infinity. rewrite !eqb_spec, abs_spec.
  destruct (Prim2SF f) as [s | [|] | | s m e]; try discriminate; eauto.
Qed.

(** The summand [fx * (X / Z)] for a point on the optical axis is a zero. *)
Lemma on_axis_term (f X Z : float) :
  is_finite f = true -> (X =? 0)%float = true ->
  (Z =? 0)%float = false -> is_nan Z = false ->
  exists s, Prim2SF (f * (X / Z)) = S754_zero s.
Proof.
  intros Hf HX HZ HZn.
  destruct (eqb_zero X HX) as (sx & EX).
  apply not_nan in HZn.
  rewrite eqb_spec in HZ. change (Prim2SF 0) with (S754_zero false) in HZ.
  rewrite mul_spec, div_spec, EX.
  destruct (Prim2SF Z) as [sz | sz | | sz mz ez]; try congruence;
    try discriminate HZ;
    destruct (finite_cases f Hf) as [(sf & ->) | (sf & mf & ef & ->)];
    eexists; reflexivity.
Qed.

Lemma zero_plus (a c : float) (s : bool) :
  Prim2SF a = S754_zero s -> is_nan c = false -> (a + c =? c)%float = true.
Proof.
  intros Ea Hc. pose proof (not_nan c Hc) as Hn.
  rewrite eqb_spec, add_spec, Ea.
  destruct (Prim2SF c) as [sc | sc | | sc mc ec] eqn:Ec; try congruence.
  - destruct s, sc; reflexivity.
  - apply SFeqb_refl. discriminate.
  - apply SFeqb_refl. discriminate.
Qed.

(** X19.  A point on the optical axis projects to the principal point: for
    [X = 0], [Y = 0], a depth [Z] that is neither zero nor NaN, finite focal
    lengths and a principal point without NaN, the returned pixel compares
    equal to [(cx, cy)] in binary64. *)
Theorem on_axis_projects_to_principal_point
    (camera : binary64.Camera) (X Y Z : float) (rest : list float) :
  (X =? 0)%float = true -> (Y =? 0)%float = true ->
  (Z =? 0)%float = false -> is_nan Z = false ->
  is_finite (binary64.fx camera) = true ->
  is_finite (binary64.fy camera) = true ->
  is_nan (binary64.cx camera) = false ->
  is_nan (binary64.cy camera) = false ->
  exists u v,
    binary64.project_world_point_to_image camera (X :: Y :: Z :: rest)
    = binary64.Returns (u, v) /\
    (u =? binary64.cx camera)%float = true /\
    (v =? binary64.cy camera)%float = true.
Proof.
  intros HX HY HZ HZn Hfx Hfy Hcx Hcy.
  eexists _, _. split; [reflexivity |].
  destruct (on_axis_term _ X Z Hfx HX HZ HZn) as (sx & Ex).
  destruct (on_axis_term _ Y Z Hfy HY HZ HZn) as (sy & Ey).
  split; eapply zero_plus; eassumption.
Qed.

Lemma on_axis_projects_to_principal_point_witness :
  binary64.project_world_point_to_image binary64.sample_camera
    [0%float; 0%float; 10%float]
  = binary64.Returns (500%float, 500%float).
Proof.
  destruct (on_axis_projects_to_principal_point binary64.sample_camera 0 0 10 [])
    as (u & v & E & _ & _); try reflexivity.
Defined.

(** ** Plotting *)

(** X22.  [plot_photo_plan] raises [IndexError] exactly on the empty plan;
    on any other plan it returns a figure with a single trace that holds one
    point per waypoint, in the order of the plan. *)
Theorem plot_empty_plan (format_2f : Q -> string) (photo_plans : list Waypoint) :
  (visualization.plot_photo_plan format_2f photo_plans = None
   <-> photo_plans = []) /\
  (photo_plans <> [] ->
   exists fig trace,
     visualization.plot_photo_plan format_2f photo_plans = Some fig /\
     visualization.data fig = [trace] /\
     visualization.scatter_x trace = map x photo_plans /\
     visualization.scatter_y trace = map y photo_plans /\
     length (visualization.scatter_x trace) = length photo_plans /\
     length (visualization.scatter_y trace) = length photo_plans).
Proof.
  destruct photo_plans as [| w rest].
  - split; [split; reflexivity |]. intros H. contradiction.
  - split; [split; discriminate |].
    intros _. eexists _, _. split; [reflexivity |].
    split; [reflexivity |]. split; [reflexivity |]. split; [reflexivity |].
    cbn [visualization.scatter_x visualization.scatter_y].
    rewrite !length_map. split; reflexivity.
Qed.

(** X23.  Planning and plotting compose: on valid inputs the plan of
    [generate_photo_plan_on_grid] is always plotted (no [IndexError]), the
    trace has [num_rows * num_cols] points, and the title reports the height
    of the specification and the capture speed, which the function reads
    from the first waypoint. *)
Theorem plot_of_generated_plan
    (format_2f : Q -> string) (camera : Camera) (dataset_spec : DatasetSpec) :
  valid_camera camera -> valid_spec dataset_spec ->
  exists num_rows num_cols adx ady capture_speed plan fig trace,
    plan_grid camera dataset_spec = Some (num_rows, num_cols, adx, ady) /\
    compute_speed_during_photo_capture camera dataset_spec
      default_allowed_movement_px = Some capture_speed /\
    generate_photo_plan_on_grid camera dataset_spec = Some plan /\
    visualization.plot_photo_plan format_2f plan = Some fig /\
    visualization.data fig = [trace] /\
    Z.of_nat (length (visualization.scatter_x trace)) = (num_rows * num_cols)%Z /\
    Z.of_nat (length (visualization.scatter_y trace)) = (num_rows * num_cols)%Z /\
    visualization.title (visualization.layout fig)
    = Some ("Drone Flight Plan<br><sup>Height (Z): "
            ++ format_2f (height dataset_spec)
            ++ "m | Capture Speed: " ++ format_2f capture_speed
            ++ " m/s</sup>")%string.
Proof.
  intros Hc Hs.
  destruct (plan_valid _ _ Hc Hs) as (dx & dy & v & Ed & Hdx & Hdy & Ev & _ & Eg & Ep).
  destruct Hs as (_ & _ & _ & Hsx & Hsy & _).
  pose proof (spec_lines_pos _ _ Hsx Hdx) as Hcols.
  pose proof (spec_lines_pos _ _ Hsy Hdy) as Hrows.
  eexists _, _, _, _, v, _.
  pose proof (grid_nth (scan_dimension_x dataset_spec)
                (actual_distance (scan_dimension_x dataset_spec)
                   (spec_lines (scan_dimension_x dataset_spec) dx))
                (actual_distance (scan_dimension_y dataset_spec)
                   (spec_lines (scan_dimension_y dataset_spec) dy))
                (spec_lines (scan_dimension_y dataset_spec) dy)
                (spec_lines (scan_dimension_x dataset_spec) dx)
                (height dataset_spec) v 0 0 ltac:(lia) ltac:(lia)) as H0.
  cbn [Nat.mul Nat.add] in H0.
  unfold visualization.plot_photo_plan. rewrite H0. cbn [bind ret z speed].
  eexists _, _.
  split; [exact Eg |]. split; [exact Ev |]. split; [exact Ep |].
  split; [reflexivity |]. split; [reflexivity |].
  cbn [visualization.scatter_x visualization.scatter_y].
  rewrite !length_map, grid_length.
  split; [lia |]. split; [lia |]. reflexivity.
Qed.

Lemma plot_of_generated_plan_witness :
  exists plan fig,
    generate_photo_plan_on_grid sample_camera sample_spec = Some plan /\
    visualization.plot_photo_plan (fun _ => EmptyString) plan = Some fig /\
    length (visualization.data fig) = 1%nat.
Proof.
  destruct (plot_of_generated_plan (fun _ => EmptyString) sample_camera sample_spec
              sample_camera_valid sample_spec_valid)
    as (nr & nc & adx & ady & v & plan & fig & trace & _ & _ & Ep & Ef & Ed & _).
  exists plan, fig. split; [exact Ep |]. split; [exact Ef |].
  rewrite Ed. reflexivity.
Defined.

(** * The planner in binary64 *)

Module planner64.

Import binary64.

(** ** Signs under correct rounding *)

Lemma round_aux_not_negative (m e : Z) (l : location) :
  not_negative (binary_round_aux prec emax false m e l) = true.
Proof.
  unfold binary_round_aux.
  destruct (shr_fexp prec emax m e l) as [mrs' e'].
  destruct (shr_fexp prec emax _ e' loc_Exact) as [mrs'' e''].
  destruct (shr_m mrs''); [reflexivity | | reflexivity].
  destruct (e'' <=? emax - prec)%Z; reflexivity.
Qed.

Lemma round_not_negative (m : positive) (e : Z) :
  not_negative (binary_round prec emax false m e) = true.
Proof.
  unfold binary_round. destruct (shl_align m e _) as [mz ez].
  apply round_aux_not_negative.
Qed.

Lemma normalize_not_negative (n e : Z) :
  (0 <= n)%Z -> not_negative (binary_normalize prec emax n e false) = true.
Proof.
  intros H. destruct n as [| p | p]; [reflexivity | apply round_not_negative | lia].
Qed.

Lemma mul_not_negative (a b : float) :
  not_negative (Prim2SF a) = true -> not_negative (Prim2SF b) = true ->
  not_negative (Prim2SF (a * b)%float) = true.
Proof.
  intros Ha Hb. rewrite mul_spec.
  destruct (Prim2SF a) as [[|] | [|] | | [|] ma ea]; try discriminate;
    destruct (Prim2SF b) as [[|] | [|] | | [|] mb eb]; try discriminate;
    try reflexivity.
  apply round_aux_not_negative.
Qed.

Lemma SFdiv_not_negative (a b : spec_float) :
  not_negative a = true -> not_negative b = true ->
  not_negative (SFdiv prec emax a b) = true.
Proof.
  intros Ha Hb.
  destruct a as [[|] | [|] | | [|] ma ea]; try discriminate;
    destruct b as [[|] | [|] | | [|] mb eb]; try discriminate;
    try reflexivity.
  unfold SFdiv.
  destruct (SFdiv_core_binary prec emax (Z.pos ma) ea (Z.pos mb) eb) as [[mz ez] lz].
  apply round_aux_not_negative.
Qed.

Lemma div_not_negative (a b : float) :
  not_negative (Prim2SF a) = true -> not_negative (Prim2SF b) = true ->
  not_negative (Prim2SF (a / b)%float) = true.
Proof. intros Ha Hb. rewrite div_spec. apply SFdiv_not_negative; assumption. Qed.

Lemma SF2Prim_not_negative (s : spec_float) :
  not_negative s = true -> not_negative (Prim2SF (SF2Prim s)) = true.
Proof.
  intros H. destruct s as [[|] | [|] | | [|] m e]; try discriminate; try reflexivity.
  unfold SF2Prim. rewrite Z_ldexp_spec, of_uint63_spec.
  pose proof (Uint63.to_Z_bounded (Uint63.of_Z (Z.pos m))) as [Hb _].
  pose proof (normalize_not_negative _ 0 Hb) as Hn.
  destruct (binary_normalize prec emax (Uint63.to_Z (Uint63.of_Z (Z.pos m))) 0 false)
    as [[|] | [|] | | [|] m' e']; try discriminate; try reflexivity.
  apply round_not_negative.
Qed.

Lemma to_float_not_negative (n : Z) :
  (0 <= n)%Z -> not_negative (Prim2SF (to_float n)) = true.
Proof.
  intros H. apply SF2Prim_not_negative, normalize_not_negative, H.
Qed.

Lemma positive_not_negative (f : float) :
  (0 <? f)%float = true -> not_negative (Prim2SF f) = true.
Proof.
  rewrite ltb_spec. change (Prim2SF 0) with (S754_zero false).
  destruct (Prim2SF f) as [[|] | [|] | | [|] m e]; try discriminate; reflexivity.
Qed.


Lemma digits2_bound (m : positive) : (Z.pos m < 2 ^ Z.pos (digits2_pos m))%Z.
Proof.
  induction m as [p IH | p IH |]; cbn [digits2_pos].
  - rewrite Pos2Z.inj_succ, Z.pow_succ_r by lia. lia.
  - rewrite Pos2Z.inj_succ, Z.pow_succ_r by lia. lia.
  - reflexivity.
Qed.

Lemma valid_mantissa_bound (s : bool) (m : positive) (e : Z) :
  valid_binary (S754_finite s m e) = true -> (Z.pos m < 2 ^ 53)%Z.
Proof.
  unfold valid_binary, SpecFloat.valid_binary, bounded, canonical_mantissa, fexp.
  intros H. apply andb_prop in H. destruct H as [H _].
  apply Z.eqb_eq in H.
  assert (Hd : (Z.pos (digits2_pos m) <= 53)%Z) by (unfold prec in H; lia).
  apply Z.lt_le_trans with (2 ^ Z.pos (digits2_pos m))%Z; [apply digits2_bound |].
  apply Z.pow_le_mono_r; lia.
Qed.

(** [1 - o] is not negative for [o < 1]: the aligned mantissas are compared
    the way the two numbers are. *)
Lemma one_minus_not_negative (o : float) :
  (o <? 1)%float = true -> not_negative (Prim2SF (1 - o)%float) = true.
Proof.
  intros H. rewrite ltb_spec in H. rewrite sub_spec.
  pose proof (Prim2SF_valid o) as V.
  replace (Prim2SF 1) with (S754_finite false 4503599627370496 (-52)) in *
    by (vm_compute; reflexivity).
  destruct (Prim2SF o) as [[|] | [|] | | s m e]; try discriminate; try reflexivity.
  unfold SF64sub, SFsub. cbv beta iota.
  apply normalize_not_negative.
  destruct s.
  - cbn [cond_Zopp].
    set (a := fst (shl_align 4503599627370496 (-52) (Z.min (-52) e))).
    set (b := fst (shl_align m e (Z.min (-52) e))). lia.
  - cbn [cond_Zopp]. apply valid_mantissa_bound in V.
    unfold SFltb, SFcompare in H.
    destruct (Z.compare_spec e (-52)) as [E | E | E]; try discriminate.
    + subst e. rewrite Z.min_id.
      unfold shl_align. rewrite Z.sub_diag. cbn [fst].
      rewrite Pos.compare_cont_spec in H. cbn [Pos.switch_Eq] in H.
      destruct (Pos.compare_spec m 4503599627370496) as [E1 | E1 | E1];
        try discriminate.
      apply Z.lt_le_incl, Z.lt_0_sub. exact E1.
    + rewrite Z.min_r by (apply Z.lt_le_incl; exact E).
      unfold shl_align. rewrite Z.sub_diag. cbn [fst].
      assert (Ed : exists d, (e - -52)%Z = Z.neg d).
      { destruct (e - -52)%Z as [| d | d] eqn:Ed.
        - exfalso. clear - E Ed. lia.
        - exfalso. clear - E Ed. lia.
        - exists d. reflexivity. }
      destruct Ed as (d & ->). cbn [fst].
      change (Pos.iter xO 4503599627370496%positive d)
        with (shift_pos d 4503599627370496%positive).
      rewrite shift_pos_correct, Zpower_pos_nat, Zpower_nat_Z, positive_nat_Z.
      change (Z.pos 4503599627370496) with (2 ^ 52)%Z.
      rewrite <- Z.pow_add_r by (clear; lia).
      apply Z.lt_le_incl, Z.lt_0_sub.
      apply Z.lt_le_trans with (2 ^ 53)%Z; [exact V |].
      apply Z.pow_le_mono_r; clear; lia.
Qed.

Lemma ceil_not_negative (q : float) (k : Z) :
  not_negative (Prim2SF q) = true -> ceil q = Ok k -> (0 <= k)%Z.
Proof.
  unfold ceil.
  destruct (Prim2SF q) as [[|] | [|] | | [|] m e]; try discriminate;
    intros _ H; injection H as H; subst k; [lia |].
  destruct (0 <=? e)%Z eqn:E.
  - apply Z.leb_le in E.
    assert (Hp : (0 <= 2 ^ e)%Z) by (apply Z.pow_nonneg; lia).
    change (0 <= Z.pos m * 2 ^ e)%Z.
    apply Z.mul_nonneg_nonneg; [lia | exact Hp].
  - apply Z.leb_gt in E.
    change (0 <= - (- Z.pos m / 2 ^ (- e)))%Z.
    assert (Hp : (0 < 2 ^ (- e))%Z) by (apply Z.pow_pos_nonneg; lia).
    assert (Hd : (- Z.pos m / 2 ^ (- e) <= 0)%Z)
      by (apply Z.div_le_upper_bound; [exact Hp | lia]).
    lia.
Qed.

(** ** Results of the partial operations *)

Lemma and_then_ok {A B : Type} (m : result A) (k : A -> result B) (b : B) :
  and_then m k = Ok b -> exists a, m = Ok a /\ k a = Ok b.
Proof.
  destruct m as [a | e]; [| discriminate]. intros H. exists a. auto.
Qed.

Lemma float_of_int_ok (n : Z) (f : float) :
  float_of_int n = Ok f -> f = to_float n /\ is_finite f = true.
Proof.
  unfold float_of_int. destruct (is_finite (to_float n)) eqn:E; [| discriminate].
  intros [= <-]. auto.
Qed.

Lemma float_truediv_ok (a b q : float) :
  float_truediv a b = Ok q -> q = (a / b)%float.
Proof.
  unfold float_truediv. destruct (b =? 0)%float; [discriminate |].
  intros [= <-]. reflexivity.
Qed.

Lemma int_truediv_ok (n m : Z) (a : float) :
  int_truediv n m = Ok a ->
  m <> 0%Z /\ a = SF2Prim (SFdiv prec emax (Z2SF n) (Z2SF m)) /\
  is_finite a = true.
Proof.
  unfold int_truediv. destruct (Z.eqb_spec m 0); [discriminate |].
  destruct (is_finite (SF2Prim (SFdiv prec emax (Z2SF n) (Z2SF m)))) eqn:E;
    [| discriminate].
  intros [= <-]. auto.
Qed.

Lemma Z2SF_not_negative (n : Z) : (0 <= n)%Z -> not_negative (Z2SF n) = true.
Proof. intros H. destruct n; [reflexivity | reflexivity | lia]. Qed.

Lemma int_truediv_not_negative (n m : Z) (a : float) :
  (0 <= n)%Z -> (0 <= m)%Z -> int_truediv n m = Ok a ->
  not_negative (Prim2SF a) = true.
Proof.
  intros Hn Hm H. apply int_truediv_ok in H. destruct H as (_ & -> & _).
  apply SF2Prim_not_negative, SFdiv_not_negative; apply Z2SF_not_negative;
    assumption.
Qed.

Lemma actual_distance_finite (scan_dim num_lines : Z) (a : float) :
  actual_distance scan_dim num_lines = Ok a -> is_finite a = true.
Proof.
  unfold actual_distance. destruct (1 <? num_lines)%Z.
  - intros H. apply int_truediv_ok in H. tauto.
  - intros [= <-]. reflexivity.
Qed.

Lemma actual_distance_not_negative (scan_dim num_lines : Z) (a : float) :
  (0 <= scan_dim)%Z -> actual_distance scan_dim num_lines = Ok a ->
  not_negative (Prim2SF a) = true.
Proof.
  intros Hs. unfold actual_distance. destruct (Z.ltb_spec 1 num_lines).
  - apply int_truediv_not_negative; lia.
  - intros [= <-]. reflexivity.
Qed.

Lemma num_intervals_ok (scan_dim : Z) (ideal_distance : float) (k : Z) :
  num_intervals scan_dim ideal_distance = Ok k ->
  (scan_dim = 0%Z /\ k = 0%Z) \/
  (scan_dim <> 0%Z /\ is_finite (to_float scan_dim) = true /\
   ceil (to_float scan_dim / ideal_distance) = Ok k).
Proof.
  unfold num_intervals. destruct (Z.eqb_spec scan_dim 0) as [E | E].
  - intros [= <-]. left. auto.
  - intros H. right. apply and_then_ok in H. destruct H as (f & Hf & H).
    apply float_of_int_ok in Hf. destruct Hf as (-> & Hf). auto.
Qed.

Lemma num_intervals_not_negative (scan_dim : Z) (ideal_distance : float) (k : Z) :
  (0 <= scan_dim)%Z -> not_negative (Prim2SF ideal_distance) = true ->
  num_intervals scan_dim ideal_distance = Ok k -> (0 <= k)%Z.
Proof.
  intros Hs Hi H. apply num_intervals_ok in H.
  destruct H as [(_ & ->) | (_ & _ & H)]; [lia |].
  apply (ceil_not_negative _ _ (div_not_negative _ _
           (to_float_not_negative _ Hs) Hi) H).
Qed.

Lemma to_float_scan_finite (scan_dim : Z) (ideal_distance : float) (k : Z) :
  num_intervals scan_dim ideal_distance = Ok k ->
  is_finite (to_float scan_dim) = true.
Proof.
  intros H. apply num_intervals_ok in H.
  destruct H as [(-> & _) | (_ & H & _)]; [reflexivity | exact H].
Qed.

(** ** Signs of the camera geometry *)

Ltac split_valid H :=
  repeat match type of H with
  | (_ && _)%bool = true =>
      let H1 := fresh H in
      apply andb_prop in H; destruct H as [H H1]
  end.

Lemma focal_length_not_negative (camera : Camera) (fmx fmy : float) :
  valid_camera camera = true ->
  compute_focal_length_in_mm camera = Ok (fmx, fmy) ->
  not_negative (Prim2SF fmx) = true /\ not_negative (Prim2SF fmy) = true.
Proof.
  unfold valid_camera. intros V H. split_valid V.
  unfold compute_focal_length_in_mm in H.
  apply and_then_ok in H. destruct H as (size_x & Hx & H).
  apply and_then_ok in H. destruct H as (px & Hpx & H).
  apply and_then_ok in H. destruct H as (size_y & Hy & H).
  apply and_then_ok in H. destruct H as (py & Hpy & H).
  injection H as <- <-.
  apply float_of_int_ok in Hx, Hy. destruct Hx as (-> & _), Hy as (-> & _).
  apply float_truediv_ok in Hpx, Hpy. subst px py.
  apply Z.ltb_lt in V1, V0.
  split; apply mul_not_negative; try apply div_not_negative;
    try (apply positive_not_negative; assumption);
    apply to_float_not_negative; lia.
Qed.

Lemma footprint_not_negative (camera : Camera) (d fpx fpy : float) :
  valid_camera camera = true -> (0 <? d)%float = true ->
  compute_image_footprint_on_surface camera d = Ok (fpx, fpy) ->
  not_negative (Prim2SF fpx) = true /\ not_negative (Prim2SF fpy) = true.
Proof.
  intros V Hd H. unfold compute_image_footprint_on_surface in H.
  apply and_then_ok in H. destruct H as ([fmx fmy] & Hf & H).
  rewrite Hf in H. cbn [and_then fst snd] in H. injection H as <- <-.
  destruct (focal_length_not_negative _ _ _ V Hf) as [Hx Hy].
  unfold valid_camera in V. split_valid V.
  assert (Hmm : not_negative (Prim2SF (d * 1000)%float) = true)
    by (apply mul_not_negative; [apply positive_not_negative, Hd | reflexivity]).
  split; apply div_not_negative; try reflexivity;
    apply div_not_negative; try assumption;
    apply mul_not_negative; try assumption;
    apply positive_not_negative; assumption.
Qed.

Lemma ideal_distance_not_negative
    (camera : Camera) (dataset_spec : DatasetSpec) (ix iy : float) :
  valid_camera camera = true -> valid_spec dataset_spec = true ->
  compute_distance_between_images camera dataset_spec = Ok (ix, iy) ->
  not_negative (Prim2SF ix) = true /\ not_negative (Prim2SF iy) = true.
Proof.
  intros Vc Vs H. unfold valid_spec in Vs. split_valid Vs.
  unfold compute_distance_between_images in H.
  apply and_then_ok in H. destruct H as ([fpx fpy] & Hf & H).
  rewrite Hf in H. cbn [and_then fst snd] in H. injection H as <- <-.
  destruct (footprint_not_negative _ _ _ _ Vc Vs3 Hf) as [Hx Hy].
  split; apply mul_not_negative; try assumption;
    apply one_minus_not_negative; assumption.
Qed.

(** ** The rows of the plan *)

Lemma columns_of_row (scan_dim_x : Z) (adx : float) (num_cols r : Z) :
  length (x_coords scan_dim_x adx num_cols r) = Z.to_nat num_cols.
Proof.
  unfold x_coords.
  destruct (r mod 2 =? 0)%Z; rewrite length_map; apply range_length.
Qed.

Lemma waypoints_of_row (sdx : Z) (adx ady : float) (num_cols : Z)
    (h v : float) (r : Z) :
  length (row_waypoints sdx adx ady num_cols h v r) = Z.to_nat num_cols.
Proof. unfold row_waypoints. rewrite length_map. apply columns_of_row. Qed.

Lemma waypoint_of_row (sdx : Z) (adx ady : float) (num_cols : Z)
    (h v : float) (r : Z) (c : nat) :
  (c < Z.to_nat num_cols)%nat ->
  nth_error (row_waypoints sdx adx ady num_cols h v r) c
  = Some {| x := if (r mod 2 =? 0)%Z
                 then (to_float (Z.of_nat c) * adx)%float
                 else (to_float sdx - to_float (Z.of_nat c) * adx)%float;
            y := (to_float r * ady)%float; z := h; speed := v |}.
Proof.
  intros Hc. unfold row_waypoints, x_coords.
  destruct (r mod 2 =? 0)%Z;
    rewrite !nth_error_map, range_nth by exact Hc; reflexivity.
Qed.

Section Grid64.

Variables (sdx : Z) (adx ady : float) (num_rows num_cols : Z) (h v : float).

Local Abbreviation plan :=
  (flat_map (row_waypoints sdx adx ady num_cols h v) (range num_rows)).


Lemma waypoint_of_grid (r c : nat) :
  (r < Z.to_nat num_rows)%nat -> (c < Z.to_nat num_cols)%nat ->
  nth_error plan (r * Z.to_nat num_cols + c)
  = Some {| x := if (Z.of_nat r mod 2 =? 0)%Z
                 then (to_float (Z.of_nat c) * adx)%float
                 else (to_float sdx - to_float (Z.of_nat c) * adx)%float;
            y := (to_float (Z.of_nat r) * ady)%float; z := h; speed := v |}.
Proof.
  intros Hr Hc.
  rewrite (flat_map_nth_rows _ (Z.to_nat num_cols)) with (a := Z.of_nat r).
  - apply waypoint_of_row, Hc.
  - intros r0. apply waypoints_of_row.
  - apply range_nth, Hr.
  - exact Hc.
Qed.


End Grid64.

(** ** What a returned plan was computed from *)

Lemma generate_inv (camera : Camera) (dataset_spec : DatasetSpec) (plan : list Waypoint) :
  generate_photo_plan_on_grid camera dataset_spec = Ok plan ->
  exists ix iy v kx ky adx ady,
    compute_distance_between_images camera dataset_spec = Ok (ix, iy) /\
    compute_speed_during_photo_capture camera dataset_spec
      default_allowed_movement_px = Ok v /\
    num_intervals (scan_dimension_x dataset_spec) ix = Ok kx /\
    num_intervals (scan_dimension_y dataset_spec) iy = Ok ky /\
    actual_distance (scan_dimension_x dataset_spec) (kx + 1) = Ok adx /\
    actual_distance (scan_dimension_y dataset_spec) (ky + 1) = Ok ady /\
    plan_grid camera dataset_spec = Ok ((ky + 1)%Z, (kx + 1)%Z, adx, ady) /\
    plan = flat_map
             (row_waypoints (scan_dimension_x dataset_spec) adx ady (kx + 1)
                (height dataset_spec) v)
             (range (ky + 1)).
Proof.
  intros H. unfold generate_photo_plan_on_grid in H.
  apply and_then_ok in H. destruct H as ([ix iy] & Hd & H).
  apply and_then_ok in H. destruct H as (v & Hv & H).
  apply and_then_ok in H. destruct H as (c0 & _ & H).
  apply and_then_ok in H. destruct H as (r0 & _ & H).
  apply and_then_ok in H. destruct H as (kx & Hkx & H).
  apply and_then_ok in H. destruct H as (ky & Hky & H).
  apply and_then_ok in H. destruct H as (adx & Hax & H).
  apply and_then_ok in H. destruct H as (ady & Hay & H).
  injection H as <-. cbn [fst snd] in *.
  exists ix, iy, v, kx, ky, adx, ady.
  repeat (split; [assumption |]).
  split; [| reflexivity].
  unfold plan_grid. rewrite Hd. cbn [and_then fst snd].
  rewrite Hkx. cbn [and_then]. rewrite Hky. cbn [and_then].
  rewrite Hax. cbn [and_then]. rewrite Hay. reflexivity.
Qed.

(** The facts shared by the theorems below: on valid inputs a returned plan
    has non-negative interval counts and finite, non-negative spacings. *)
Lemma plan_facts (camera : Camera) (dataset_spec : DatasetSpec) (plan : list Waypoint) :
  valid_camera camera = true -> valid_spec dataset_spec = true ->
  generate_photo_plan_on_grid camera dataset_spec = Ok plan ->
  exists ix iy v kx ky adx ady,
    compute_distance_between_images camera dataset_spec = Ok (ix, iy) /\
    num_intervals (scan_dimension_x dataset_spec) ix = Ok kx /\
    num_intervals (scan_dimension_y dataset_spec) iy = Ok ky /\
    actual_distance (scan_dimension_x dataset_spec) (kx + 1) = Ok adx /\
    actual_distance (scan_dimension_y dataset_spec) (ky + 1) = Ok ady /\
    plan_grid camera dataset_spec = Ok ((ky + 1)%Z, (kx + 1)%Z, adx, ady) /\
    plan = flat_map
             (row_waypoints (scan_dimension_x dataset_spec) adx ady (kx + 1)
                (height dataset_spec) v)
             (range (ky + 1)) /\
    ((0 <= kx)%Z /\ (0 <= ky)%Z) /\
    (is_finite adx = true /\ is_finite ady = true) /\
    (not_negative (Prim2SF adx) = true /\ not_negative (Prim2SF ady) = true) /\
    is_finite (to_float (scan_dimension_x dataset_spec)) = true /\
    ((0 <= scan_dimension_x dataset_spec)%Z /\
     (0 <= scan_dimension_y dataset_spec)%Z).
Proof.
  intros Vc Vs H.
  destruct (generate_inv _ _ _ H)
    as (ix & iy & v & kx & ky & adx & ady & Hd & _ & Hkx & Hky & Hax & Hay & Hg & Hp).
  destruct (ideal_distance_not_negative _ _ _ _ Vc Vs Hd) as [Hix Hiy].
  unfold valid_spec in Vs. split_valid Vs.
  apply Z.leb_le in Vs1, Vs2.
  exists ix, iy, v, kx, ky, adx, ady.
  repeat (split; [assumption |]).
  split.
  { split; [exact (num_intervals_not_negative _ _ _ Vs2 Hix Hkx)
           | exact (num_intervals_not_negative _ _ _ Vs1 Hiy Hky)]. }
  split.
  { split; [exact (actual_distance_finite _ _ _ Hax)
           | exact (actual_distance_finite _ _ _ Hay)]. }
  split.
  { split; [exact (actual_distance_not_negative _ _ _ Vs2 Hax)
           | exact (actual_distance_not_negative _ _ _ Vs1 Hay)]. }
  split; [exact (to_float_scan_finite _ _ _ Hkx) |].
  split; assumption.
Qed.

(** ** Exact steps of the row arithmetic *)


(** Column 0 of a row: [0 * actual_distance] is a zero. *)
Lemma zero_column (a : float) :
  is_finite a = true -> exists s, Prim2SF (to_float 0 * a)%float = S754_zero s.
Proof.
  intros H. change (to_float 0) with 0%float. rewrite mul_spec.
  change (Prim2SF 0) with (S754_zero false).
  destruct (finite_cases a H) as [(s & ->) | (s & m & e & ->)];
    eexists; reflexivity.
Qed.

Lemma zero_column_eqb (a : float) :
  is_finite a = true -> (to_float 0 * a =? 0)%float = true.
Proof.
  intros H. destruct (zero_column a H) as (s & E).
  rewrite eqb_spec, E. reflexivity.
Qed.



(** ** Size of the plan *)





(** ** Spacing *)




(** ** Row turns *)






(** ** Reverse rows *)




(** ** Position of the plan in the scan rectangle *)




(** ** Start of the flight *)

(** X12.  On valid inputs a returned plan starts at the origin of the scan
    rectangle, at the flying height: its first waypoint has [x = 0] and
    [y = 0] exactly and [z = height]. *)
Theorem plan_starts_at_origin (camera : Camera) (dataset_spec : DatasetSpec) (plan : list Waypoint) :
  valid_camera camera = true -> valid_spec dataset_spec = true ->
  generate_photo_plan_on_grid camera dataset_spec = Ok plan ->
  exists w,
    nth_error plan 0 = Some w /\
    (x w =? 0)%float = true /\ (y w =? 0)%float = true /\
    z w = height dataset_spec.
Proof.
  intros Vc Vs H.
  destruct (plan_facts _ _ _ Vc Vs H)
    as (ix & iy & v & kx & ky & adx & ady & _ & _ & _ & _ & _ & _ & ->
        & (Px & Py) & (Fx & Fy) & _).
  eexists.
  split.
  { change 0%nat with (0 * Z.to_nat (kx + 1) + 0)%nat.
    apply waypoint_of_grid; lia. }
  cbn [x y z]. change (Z.of_nat 0) with 0%Z. cbn [Z.modulo Z.eqb].
  split; [apply zero_column_eqb, Fx |].
  split; [apply zero_column_eqb, Fy | reflexivity].
Qed.

Lemma plan_starts_at_origin_witness :
  exists plan w,
    generate_photo_plan_on_grid field_camera field_spec = Ok plan /\
    nth_error plan 0 = Some w /\
    (x w =? 0)%float = true /\ z w = 100%float.
Proof.
  destruct (generate_photo_plan_on_grid field_camera field_spec)
    as [plan | e] eqn:E; [| vm_compute in E; discriminate E].
  destruct (plan_starts_at_origin field_camera field_spec plan eq_refl eq_refl E)
    as (w & Hw & Hx & _ & Hz).
  exists plan, w.
  split; [reflexivity |]. split; [exact Hw |]. split; [exact Hx | exact Hz].
Defined.

End planner64.
